(** * realm-js: the notification bridge of observable collections
      (src/js_collection.hpp) and the JavaScriptCore object wrap with its
      dispatch trampolines (src/jsc/jsc_class.hpp).

    The C++ is embedded shallowly: a scripting heap of objects addressed by
    reference, native code as state transformers that either return or
    throw, and the out-parameter [JSValueRef* exception] as the second
    component of what an engine callback returns. *)

From Stdlib Require Import ZArith NArith Lia String DecimalString DecimalN Sorted.
From stdpp Require Import base option list strings gmap.

Open Scope string_scope.
Open Scope list_scope.

(** ** Native exceptions *)

(** What a C++ [throw] can carry.  The handlers of the two files tell four
    cases apart: [std::out_of_range], [std::invalid_argument], any other
    [std::exception], and a thrown object that is no [std::exception] at all
    (the [catch (...)] of [Callback::error]). *)
Inductive exn : Type :=
| out_of_range (what : string)
| invalid_argument (what : string)
| std_exception (what : string)
| non_std.

(** [catch (std::exception &e)] *)
Definition is_std_exception (e : exn) : bool :=
  match e with
  | non_std => false
  | _ => true
  end.

(** [e.what()], for the exceptions that have one. *)
Definition what (e : exn) : option string :=
  match e with
  | out_of_range s | invalid_argument s | std_exception s => Some s
  | non_std => None
  end.

(** ** Native code: state and exceptions *)

Inductive outcome (A : Type) : Type :=
| Ok (a : A)
| Throw (e : exn).
Arguments Ok {A} a.
Arguments Throw {A} e.

(** A computation over a state [S]: it returns or throws, and the state it
    reached is kept in both cases (what was written before a [throw] stays
    written). *)
Definition M (S A : Type) : Type := S -> outcome A * S.

Definition ret {S A : Type} (a : A) : M S A := fun s => (Ok a, s).

Definition throw {S A : Type} (e : exn) : M S A := fun s => (Throw e, s).

Definition bind {S A B : Type} (m : M S A) (k : A -> M S B) : M S B :=
  fun s =>
    match m s with
    | (Ok a, s') => k a s'
    | (Throw e, s') => (Throw e, s')
    end.

(** [try { m } catch ...]: [handler e] is the body of the first clause that
    matches [e], [None] when no clause matches and [e] keeps unwinding. *)
Definition try_catch {S A : Type} (m : M S A) (handler : exn -> option (M S A)) : M S A :=
  fun s =>
    match m s with
    | (Ok a, s') => (Ok a, s')
    | (Throw e, s') =>
        match handler e with
        | Some h => h s'
        | None => (Throw e, s')
        end
    end.

Definition modify {S : Type} (f : S -> S) : M S unit := fun s => (Ok tt, f s).

Notation "x <- m ;; k" := (bind m (fun x => k))
  (at level 100, m at next level, right associativity).
Notation "m ;;; k" := (bind m (fun _ => k))
  (at level 100, right associativity).

(** ** Scripting values *)

(** A [JSObjectRef]: the address of an object of the scripting heap. *)
Definition ref : Type := positive.

(** A [JSValueRef].  [VError] is the engine's error value carrying a message
    (what [Exception::value] builds). *)
Inductive value : Type :=
| VUndefined
| VNumber (n : N)
| VString (s : string)
| VObject (r : ref)
| VError (message : string).

(** The objects of the scripting heap this layer creates or inspects. *)
Inductive object : Type :=
| Plain (props : gmap string value)
| Array (elems : list value)
| Function (source : string).

Module Collection.

(** *** The change source (collection_notifications.hpp, consumed) *)

(** Modelled from the spec: [IndexSet] (index_set.hpp is not under src/),
    "a monotonically increasing, de-duplicated sequence of non-negative
    integers"; [as_indexes] is the sequence the range-for loops walk. *)
Record IndexSet : Type := { as_indexes : list N }.

(** The invariant the spec gives the four index sets. *)
Definition increasing (s : IndexSet) : Prop := StronglySorted N.lt (as_indexes s).

Record CollectionChangeSet : Type := {
  deletions : IndexSet;
  insertions : IndexSet;
  modifications : IndexSet;
  modifications_new : IndexSet
}.

Definition token : Type := positive.

(** The [struct Callback] local to [add_listener].  A default-constructed
    [Protected<FunctionType>] is the empty handle, [None]. *)
Record Callback : Type := {
  protected_this : ref;
  before_fn : option ref;
  after_fn : option ref;
  error_fn : option ref
}.

(** What [add_notification_callback] is given: the closure of the
    simple-callback branch with its two captures, or a [Callback]. *)
Inductive CollectionChangeCallback : Type :=
| Lambda (this_object : ref) (callback : ref)
| Hooks (callback : Callback).

(** One [Function<T>::call]: the function handle, the receiver, the
    arguments. *)
Record call : Type := Call {
  callee : option ref;
  receiver : ref;
  arguments : list value
}.

(** The scripting context together with one observable collection. *)
Record world : Type := World {
  heap : gmap ref object;
  next_ref : ref;
  calls : list call;
  subscribers : gmap token CollectionChangeCallback;
  next_token : token;
  m_notification_tokens : list (ref * token)
}.

Definition set_heap (f : gmap ref object -> gmap ref object) (w : world) : world :=
  World (f (heap w)) (next_ref w) (calls w) (subscribers w) (next_token w)
        (m_notification_tokens w).

(** *** Engine primitives (js_types.hpp, consumed) *)

(** Modelled from the spec: the host primitives "create an array/object
    value"; a new object gets the next free address. *)
Definition alloc (o : object) : M world ref :=
  fun w =>
    (Ok (next_ref w),
     World (<[next_ref w := o]> (heap w)) (Pos.succ (next_ref w)) (calls w)
           (subscribers w) (next_token w) (m_notification_tokens w)).

Definition create_empty : M world ref := alloc (Plain ∅).

Definition create_array (values : list value) : M world ref := alloc (Array values).

(** Modelled from the spec: [Value::from_number] and [Value::from_string]
    (js_types.hpp is not under src/): the index as a scripting number, the
    text as a scripting string. *)
Definition from_number (index : N) : value := VNumber index.

Definition from_string (s : string) : value := VString s.

(** Modelled from the spec: "get/set a named property"; a member that is
    absent reads as undefined. *)
Definition set_property (o : ref) (name : string) (v : value) : M world unit :=
  modify (set_heap (fun h =>
    match h !! o with
    | Some (Plain props) => <[o := Plain (<[name := v]> props)]> h
    | _ => h
    end)).

Definition get_property (o : ref) (name : string) : M world value :=
  fun w =>
    (Ok match heap w !! o with
        | Some (Plain props) => default VUndefined (props !! name)
        | _ => VUndefined
        end, w).

Definition is_function (v : value) : M world bool :=
  fun w =>
    (Ok match v with
        | VObject r => match heap w !! r with Some (Function _) => true | _ => false end
        | _ => false
        end, w).

Definition is_undefined (v : value) : bool :=
  match v with VUndefined => true | _ => false end.

(** Modelled from the spec: [Value::validated_to_function] and
    [Value::validated_to_object] (js_types.hpp is not under src/) hand the
    value back at the checked type and throw when it has another one; the
    text of their message is not in the sources read here. *)
Definition validated_to_function (v : value) : M world ref :=
  b <- is_function v ;;
  match v, b with
  | VObject r, true => ret r
  | _, _ => throw (invalid_argument "value must be of type 'function'")
  end.

Definition validated_to_object (v : value) : M world ref :=
  match v with
  | VObject r => ret r
  | _ => throw (invalid_argument "value must be of type 'object'")
  end.

(** Modelled from the spec: "call a function value with a receiver and
    argument list".  The call is recorded with the handle it goes through;
    what the scripting function does is not part of this layer, and through
    an empty handle there is no function to run. *)
Definition Function_call (fn : option ref) (this_object : ref) (args : list value)
  : M world unit :=
  modify (fun w =>
    World (heap w) (next_ref w) (calls w ++ [Call fn this_object args])
          (subscribers w) (next_token w) (m_notification_tokens w)).

(** Modelled from the spec: "subscribe(instance, callback) -> Token". *)
Definition add_notification_callback (cb : CollectionChangeCallback) : M world token :=
  fun w =>
    (Ok (next_token w),
     World (heap w) (next_ref w) (calls w) (<[next_token w := cb]> (subscribers w))
           (Pos.succ (next_token w)) (m_notification_tokens w)).

(** *** js_collection.hpp *)

(** The loop shared by [create_array] (line 51) and [to_array] (line 134):
    [scratch.clear()], then one [push_back] per index. *)
Definition fill_scratch (indices : list N) : list value :=
  fold_left (fun scratch index => scratch ++ [from_number index]) indices [].

(** The local lambda [create_array] of [create_collection_change_set]: the
    indices go to a new array, which becomes the property [name] of
    [object]. *)
Definition create_array_property (o : ref) (indices : list N) (name : string)
  : M world unit :=
  a <- create_array (fill_scratch indices) ;;
  set_property o name (VObject a).

Definition create_collection_change_set (change_set : CollectionChangeSet) : M world ref :=
  o <- create_empty ;;
  create_array_property o (as_indexes (deletions change_set)) "deletions" ;;;
  create_array_property o (as_indexes (insertions change_set)) "insertions" ;;;
  create_array_property o (as_indexes (modifications change_set)) "modifications" ;;;
  ret o.

(** The closure handed to [add_notification_callback] at line 96; its second
    parameter, the [std::exception_ptr], is not read. *)
Definition lambda (this_object callback : ref) (change_set : CollectionChangeSet)
  : M world unit :=
  o <- create_collection_change_set change_set ;;
  Function_call (Some callback) this_object [VObject this_object; VObject o].

Definition to_array (index_set : IndexSet) : M world ref :=
  create_array (fill_scratch (as_indexes index_set)).

Definition before (c : Callback) (changes : CollectionChangeSet) : M world unit :=
  d <- to_array (deletions changes) ;;
  m <- to_array (modifications changes) ;;
  Function_call (before_fn c) (protected_this c)
                [VObject (protected_this c); VObject d; VObject m].

Definition after (c : Callback) (changes : CollectionChangeSet) : M world unit :=
  i <- to_array (insertions changes) ;;
  m <- to_array (modifications_new changes) ;;
  Function_call (after_fn c) (protected_this c)
                [VObject (protected_this c); VObject i; VObject m].

Definition error (c : Callback) (exception : exn) : M world unit :=
  match what exception with
  | Some description =>
      Function_call (error_fn c) (protected_this c)
                    [VObject (protected_this c); from_string description]
  | None =>
      Function_call (error_fn c) (protected_this c)
                    [VObject (protected_this c); from_string "unknown error"]
  end.

Definition emplace_back (r : ref) (t : token) : M world unit :=
  modify (fun w =>
    World (heap w) (next_ref w) (calls w) (subscribers w) (next_token w)
          (m_notification_tokens w ++ [(r, t)])).

(** The local lambda [get_function] of the hook-object branch. *)
Definition get_function (obj : ref) (name : string) : M world (option ref) :=
  v <- get_property obj name ;;
  if is_undefined v then ret None
  else (f <- validated_to_function v ;; ret (Some f)).

Definition add_listener (this_object : ref) (v : value) : M world unit :=
  b <- is_function v ;;
  if b : bool then
    callback <- validated_to_function v ;;
    t <- add_notification_callback (Lambda this_object callback) ;;
    emplace_back callback t
  else
    obj <- validated_to_object v ;;
    before_fn <- get_function obj "before" ;;
    after_fn <- get_function obj "after" ;;
    error_fn <- get_function obj "error" ;;
    t <- add_notification_callback
           (Hooks {| protected_this := this_object; before_fn := before_fn;
                     after_fn := after_fn; error_fn := error_fn |}) ;;
    emplace_back obj t.

(** Modelled from the spec: [Protected<ObjectType>::Comparator]
    (jsc_protected.hpp is not under src/), the "identity comparison" of two
    handles: they compare equal when they hold the same object reference. *)
Definition compare (a b : ref) : bool := bool_decide (a = b).

(** [std::remove_if] followed by [erase] up to [end()]: the elements the
    predicate rejects, in their order. *)
Fixpoint remove_if {A : Type} (pred : A -> bool) (l : list A) : list A :=
  match l with
  | [] => []
  | x :: l' => if pred x then remove_if pred l' else x :: remove_if pred l'
  end.

(** Modelled from the spec: "destroying [a NotificationToken]
    unsubscribes". *)
Definition unsubscribe (gone : list token) (subs : gmap token CollectionChangeCallback)
  : gmap token CollectionChangeCallback :=
  foldr delete subs gone.

Definition remove_listener (protected_function : ref) (w : world) : world :=
  let matches (p : ref * token) := compare p.1 protected_function in
  let kept := remove_if matches (m_notification_tokens w) in
  let gone := remove_if (fun p => negb (matches p)) (m_notification_tokens w) in
  World (heap w) (next_ref w) (calls w) (unsubscribe gone.*2 (subscribers w))
        (next_token w) kept.

Definition remove_all_listeners (w : world) : world :=
  World (heap w) (next_ref w) (calls w)
        (unsubscribe (m_notification_tokens w).*2 (subscribers w))
        (next_token w) [].

(** Modelled from the spec: the change source delivers one change set to a
    subscription by calling the simple callback once, or [before] and then
    [after] of a hook object. *)
Definition deliver (cb : CollectionChangeCallback) (changes : CollectionChangeSet)
  : M world unit :=
  match cb with
  | Lambda this_object callback => lambda this_object callback changes
  | Hooks c => before c changes ;;; after c changes
  end.

Definition notify (t : token) (changes : CollectionChangeSet) : M world unit :=
  fun w =>
    match subscribers w !! t with
    | Some cb => deliver cb changes w
    | None => (Ok tt, w)
    end.

(** Modelled from the spec: a failure of the change-detection pipeline is
    "reported only to registered error hooks ... or silently dropped for
    simple-callback subscribers". *)
Definition deliver_error (cb : CollectionChangeCallback) (exception : exn) : M world unit :=
  match cb with
  | Lambda _ _ => ret tt
  | Hooks c => error c exception
  end.

Definition notify_error (t : token) (exception : exn) : M world unit :=
  fun w =>
    match subscribers w !! t with
    | Some cb => deliver_error cb exception w
    | None => (Ok tt, w)
    end.

(** The spec's reading of [remove_listener]: only the first pair whose
    reference is the given one goes. *)
Fixpoint remove_first_match (f : ref) (l : list (ref * token)) : list (ref * token) :=
  match l with
  | [] => []
  | p :: l' => if compare p.1 f then l' else p :: remove_first_match f l'
  end.


(** *** Vocabulary of the statements, and example worlds *)

(** A context holding two functions with the same source text, at
    addresses 1 and 2, and a collection instance at address 7. *)
Definition two_functions : world :=
  World (<[1%positive := Function "function () {}"]>
           (<[2%positive := Function "function () {}"]> ∅))
        10%positive [] ∅ 1%positive [].

Definition registered_twice : world :=
  ((add_listener 7%positive (VObject 1%positive) ;;;
    add_listener 7%positive (VObject 2%positive) ;;;
    add_listener 7%positive (VObject 1%positive)) two_functions).2.

(** The scripting value [v] is an array holding the indices of [s], which
    ascend. *)
Definition index_array (h : gmap ref object) (v : option value) (s : IndexSet) : Prop :=
  exists a, v = Some (VObject a)
            /\ h !! a = Some (Array (VNumber <$> as_indexes s))
            /\ StronglySorted N.lt (as_indexes s).

(** The change set of the spec's round trip. *)
Definition round_trip_changes : CollectionChangeSet :=
  {| deletions := {| as_indexes := [2%N] |};
     insertions := {| as_indexes := [0%N; 1%N] |};
     modifications := {| as_indexes := [] |};
     modifications_new := {| as_indexes := [] |} |}.

(** The hook [name] of an object with properties [props]: the function the
    member holds, if there is one. *)
Definition hook (props : gmap string value) (name : string) : option ref :=
  match props !! name with
  | Some (VObject f) => Some f
  | _ => None
  end.

(** The member [name] is absent (or undefined), or it is a function. *)
Definition optional_function (h : gmap ref object) (props : gmap string value)
    (name : string) : Prop :=
  match props !! name with
  | None | Some VUndefined => True
  | Some (VObject f) => exists source, h !! f = Some (Function source)
  | Some _ => False
  end.

(** A hook object with [after] only, at address 3. *)
Definition after_only : world :=
  World (<[3%positive := Plain (<["after" := VObject 1%positive]> ∅)]> (heap two_functions))
        10%positive [] ∅ 1%positive [].

(** A hook object with [error] only, at address 4. *)
Definition error_only : world :=
  World (<[4%positive := Plain (<["error" := VObject 2%positive]> ∅)]> (heap two_functions))
        10%positive [] ∅ 1%positive [].

(** A hook object whose [after] is a number, at address 5. *)
Definition number_for_after : world :=
  World (<[5%positive := Plain (<["after" := VNumber 5]>
                                  (<["before" := VObject 1%positive]> ∅))]>
           (heap two_functions))
        10%positive [] ∅ 1%positive [].

(** The context [two_functions] after function 1 and then function 2 were
    registered on the instance at address 7. *)
Definition two_listeners : world :=
  ((add_listener 7%positive (VObject 1%positive) ;;;
    add_listener 7%positive (VObject 2%positive)) two_functions).2.





(** [error_only] after its hook object and then function 1 were
    registered. *)
Definition two_error_hooks : world :=
  ((add_listener 7%positive (VObject 4%positive) ;;;
    add_listener 7%positive (VObject 1%positive)) error_only).2.

End Collection.

Module Jsc.

(** *** Native objects and their wrap *)

(** A non-null [T*]; [option ptr] is a [T*], [None] being [nullptr]. *)
Definition ptr : Type := positive.

(** [ObjectWrap<T>]: its one data member, the [std::unique_ptr<T>]. *)
Record ObjectWrap : Type := { m_object : option ptr }.

(** [jsc::ReturnValue]: the holder starts as the null [JSValueRef], [None],
    and the typed callback may set it. *)
Definition ReturnValue : Type := option value.

(** What an engine callback hands back: its result and what it stored
    through [JSValueRef* exception] ([None]: the slot was left alone). *)
Definition abi (A : Type) : Type := A * option value.

(** A computation over [S] run with a second piece of state beside it (the
    return-value holder, the property-name accumulator). *)
Definition lift {X S A : Type} (m : M S A) : M (X * S) A :=
  fun xs => let '(r, s') := m xs.2 in (r, (xs.1, s')).

(** Modelled from the spec: [jsc::Exception::value] (jsc_exception.hpp is
    not under src/), the "engine error carrying the native failure's
    message". *)
Definition Exception_value (message : string) : value := VError message.

Definition Exception_value_of (e : exn) : value :=
  Exception_value (default "" (what e)).

(** [util::to_string] and [sprintf("%u")] of an index. *)
Definition to_string (index : N) : string := NilZero.string_of_uint (N.to_uint index).

(** Modelled from the spec: [validated_positive_index] (js_util.hpp is not
    under src/): the name "parses as a non-negative integer" that fits
    [uint32_t].  The handlers of [get_property] and [set_property] name its
    two failures: [std::invalid_argument] when the property is not a number,
    [std::out_of_range] when the number is no index; the wording of the
    messages is not in the sources read here. *)
Definition validated_positive_index {S : Type} (property : string) : M S N :=
  match NilZero.int_of_string property with
  | None => throw (invalid_argument ("Cannot convert string '" +:+ property +:+ "'"))
  | Some d =>
      let index := Z.of_int d in
      if (index <? 0)%Z then
        throw (out_of_range ("Index " +:+ property +:+ " cannot be less than zero."))
      else if (4294967295 <? index)%Z then
        throw (out_of_range ("Index " +:+ property +:+ " must be a 32-bit unsigned integer"))
      else ret (Z.to_N index)
  end.

(** [catch (std::exception &e) { *exception = jsc::Exception::value(ctx, e); }] *)
Definition catch_std_exception {S A : Type} (k : value -> M S A) : exn -> option (M S A) :=
  fun e => if is_std_exception e then Some (k (Exception_value_of e)) else None.

Section ObjectWrap.

(** [template<typename T>]: the native domain type. *)
Context {T : Type}.

(** The native heap, the wrap each wrapped instance carries as its private
    data, and the next free object address. *)
Record world : Type := World {
  natives : gmap ptr T;
  wraps : gmap ref ObjectWrap;
  next_object : ref
}.

(** *** Callback types (js_class.hpp) *)

(** The typed native callbacks; a [ReturnValue &] parameter is the first
    component of the state. *)
Definition ConstructorType : Type := ref -> list value -> M world unit.
Definition MethodType : Type := ref -> list value -> M (ReturnValue * world) unit.
Definition PropertyGetterType : Type := ref -> M (ReturnValue * world) unit.
Definition PropertySetterType : Type := ref -> value -> M world unit.
Definition IndexPropertyGetterType : Type := ref -> N -> M (ReturnValue * world) unit.
Definition IndexPropertySetterType : Type := ref -> N -> value -> M world bool.
Definition StringPropertyGetterType : Type := ref -> string -> M (ReturnValue * world) unit.
Definition StringPropertySetterType : Type := ref -> string -> value -> M world bool.
Definition StringPropertyEnumeratorType : Type := ref -> M world (list string).

(** The engine's callback types.  A [Throw] of one of these is a native
    exception unwinding through the engine's frames. *)
Definition MethodCallback : Type := ref -> ref -> list value -> M world (abi ReturnValue).
Definition PropertyGetterCallback : Type := ref -> string -> M world (abi ReturnValue).
Definition PropertySetterCallback : Type := ref -> string -> value -> M world (abi bool).
Definition IndexPropertyGetterCallback : Type := ref -> N -> M world (abi ReturnValue).
Definition IndexPropertySetterCallback : Type := ref -> N -> value -> M world (abi bool).
Definition StringPropertyEnumeratorCallback : Type := ref -> M (list string * world) unit.

(** A getter and setter pair; a null function pointer is [None]. *)
Record PropertyType (G S : Type) : Type := {
  getter : option G;
  setter : option S
}.
Arguments getter {G S} _.
Arguments setter {G S} _.

Record StringPropertyType : Type := {
  accessors :> PropertyType PropertyGetterCallback PropertySetterCallback;
  enumerator : option StringPropertyEnumeratorCallback
}.

(** [ObjectClass<T>], the members the entry points below read. *)
Record ObjectClass : Type := {
  name : string;
  constructor : option ConstructorType;
  properties : gmap string (PropertyType PropertyGetterCallback PropertySetterCallback);
  index_accessor : PropertyType IndexPropertyGetterCallback IndexPropertySetterCallback;
  string_accessor : StringPropertyType
}.

(** *** The trampolines [js::wrap<F>] *)

(** [jsc::ReturnValue return_value(ctx); try { body } catch ... return return_value;]
    A handler gets the holder as the callback left it. *)
Definition returning (body : M (ReturnValue * world) unit)
    (handler : exn -> option (ReturnValue -> abi ReturnValue)) : M world (abi ReturnValue) :=
  fun w =>
    match body (None, w) with
    | (Ok _, (return_value, w')) => (Ok (return_value, None), w')
    | (Throw e, (return_value, w')) =>
        match handler e with
        | Some h => (Ok (h return_value), w')
        | None => (Throw e, w')
        end
    end.

Definition set_exception (e : exn) : option (ReturnValue -> abi ReturnValue) :=
  if is_std_exception e
  then Some (fun return_value => (return_value, Some (Exception_value_of e)))
  else None.

Definition wrap_method (F : MethodType) : MethodCallback :=
  fun function this_object arguments => returning (F this_object arguments) set_exception.

Definition wrap_getter (F : PropertyGetterType) : PropertyGetterCallback :=
  fun object property => returning (F object) set_exception.

Definition wrap_setter (F : PropertySetterType) : PropertySetterCallback :=
  fun object property v =>
    try_catch (F object v ;;; ret (true, None))
              (catch_std_exception (fun x => ret (false, Some x))).

Definition wrap_index_getter (F : IndexPropertyGetterType) : IndexPropertyGetterCallback :=
  fun object index =>
    returning (F object index)
      (fun e =>
         match e with
         | out_of_range _ => Some (fun _ => (Some VUndefined, None))
         | _ => set_exception e
         end).

Definition wrap_index_setter (F : IndexPropertySetterType) : IndexPropertySetterCallback :=
  fun object index v =>
    try_catch (b <- F object index v ;; ret (b, None))
              (catch_std_exception (fun x => ret (false, Some x))).

Definition wrap_string_getter (F : StringPropertyGetterType) : PropertyGetterCallback :=
  fun object property => returning (F object property) set_exception.

Definition wrap_string_setter (F : StringPropertySetterType) : PropertySetterCallback :=
  fun object property v =>
    try_catch (b <- F object property v ;; ret (b, None))
              (catch_std_exception (fun x => ret (false, Some x))).

Definition JSPropertyNameAccumulatorAddName (name : string) : M (list string * world) unit :=
  modify (fun aw => (aw.1 ++ [name], aw.2)).

Fixpoint add_names (names : list string) : M (list string * world) unit :=
  match names with
  | [] => ret tt
  | name :: rest => JSPropertyNameAccumulatorAddName name ;;; add_names rest
  end.

Definition wrap_string_enumerator (F : StringPropertyEnumeratorType)
  : StringPropertyEnumeratorCallback :=
  fun object =>
    names <- lift (F object) ;;
    add_names names.

(** *** [ObjectWrap<T>] *)

(** [std::unique_ptr<T>] given a new pointer: the object it owned is
    destroyed. *)
Definition destroy (owned : option ptr) (live : gmap ptr T) : gmap ptr T :=
  match owned with
  | Some p => delete p live
  | None => live
  end.

(** [operator=(T* object)] on the wrap [this], over the native heap. *)
Definition assign (this : ObjectWrap) (object : option ptr) (live : gmap ptr T)
  : ObjectWrap * gmap ptr T :=
  if decide (m_object this = object) then (this, live)
  else ({| m_object := object |}, destroy (m_object this) live).

(** [ObjectWrap<T>::create]: [JSObjectMake] with a new wrap as private data. *)
Definition create (internal : option ptr) : M world ref :=
  fun w =>
    (Ok (next_object w),
     World (natives w) (<[next_object w := {| m_object := internal |}]> (wraps w))
           (Pos.succ (next_object w))).

(** Modelled from the spec: [set_internal] (jsc_object.hpp is not under
    src/), by which a constructor callback gives the instance its native
    object: the wrap's [operator=]. *)
Definition set_internal (object : ref) (p : option ptr) : M world unit :=
  modify (fun w =>
    match wraps w !! object with
    | Some this =>
        let '(this', live) := assign this p (natives w) in
        World live (<[object := this']> (wraps w)) (next_object w)
    | None => w
    end).

(** A [new T]. *)
Definition new_native (p : ptr) (t : T) : M world unit :=
  modify (fun w => World (<[p := t]> (natives w)) (wraps w) (next_object w)).

Variable s_class : ObjectClass.

(** [Object::validated_get_length] (js_types.hpp, not under src/): the
    length query on the instance, which may throw. *)
Variable validated_get_length : ref -> M world N.

Definition construct (constructor_object : ref) (arguments : list value)
  : M world (abi (option ref)) :=
  match constructor s_class with
  | None => ret (None, Some (Exception_value "Illegal constructor"))
  | Some ctor =>
      this_object <- create None ;;
      try_catch (ctor this_object arguments ;;; ret (Some this_object, None))
                (catch_std_exception (fun x => ret (Some this_object, Some x)))
  end.

Definition get_property (object : ref) (property : string) : M world (abi ReturnValue) :=
  let string_path : M world (abi ReturnValue) :=
    match getter (string_accessor s_class) with
    | Some string_getter => string_getter object property
    | None => ret (None, None)
    end in
  match getter (index_accessor s_class) with
  | Some index_getter =>
      r <- try_catch
             (index <- validated_positive_index property ;;
              r <- index_getter object index ;;
              ret (Some r))
             (fun e =>
                match e with
                | out_of_range _ => Some (ret (Some (Some VUndefined, None)))
                | invalid_argument _ => Some (ret None)
                | _ => None
                end) ;;
      match r with
      | Some r => ret r
      | None => string_path
      end
  | None => string_path
  end.

Definition set_property (object : ref) (property : string) (v : value) : M world (abi bool) :=
  let string_path : M world (abi bool) :=
    match setter (string_accessor s_class) with
    | Some string_setter => string_setter object property v
    | None => ret (false, None)
    end in
  let index_setter := setter (index_accessor s_class) in
  if bool_decide (is_Some index_setter \/ is_Some (getter (index_accessor s_class))) then
    r <- try_catch
           (index <- validated_positive_index property ;;
            match index_setter with
            | Some index_setter =>
                r <- index_setter object index v ;; ret (Some r)
            | None =>
                ret (Some (false,
                           Some (Exception_value
                                   ("Cannot assigned to read only index " +:+ to_string index))))
            end)
           (fun e =>
              match e with
              | out_of_range _ => Some (ret (Some (false, Some (Exception_value_of e))))
              | invalid_argument _ => Some (ret None)
              | _ => None
              end) ;;
    match r with
    | Some r => ret r
    | None => string_path
    end
  else string_path.

Definition set_readonly_property : PropertySetterCallback :=
  fun object property v =>
    ret (false,
         Some (Exception_value ("Cannot assign to read only property '" +:+ property +:+ "'"))).

(** [for (uint32_t i = 0; i < length; i++)], [count] iterations left. *)
Fixpoint add_index_names (i : N) (count : nat) : M (list string * world) unit :=
  match count with
  | O => ret tt
  | S count' =>
      JSPropertyNameAccumulatorAddName (to_string i) ;;;
      add_index_names (N.succ i) count'
  end.

Definition get_property_names (object : ref) : M (list string * world) unit :=
  match getter (index_accessor s_class) with
  | Some _ =>
      try_catch
        (length <- lift (validated_get_length object) ;;
         add_index_names 0 (N.to_nat length))
        (fun e => if is_std_exception e then Some (ret tt) else None)
  | None => ret tt
  end ;;;
  match enumerator (string_accessor s_class) with
  | Some string_enumerator => string_enumerator object
  | None => ret tt
  end.

(** One row of the [JSStaticValue] table. *)
Record JSStaticValue : Type := {
  static_name : string;
  getProperty : option PropertyGetterCallback;
  setProperty : PropertySetterCallback
}.

(** The rows [get_properties] writes through [values[index++]], one per
    property; [?:] puts [set_readonly_property] where the property has no
    setter. *)
Definition get_properties
    (props : gmap string (PropertyType PropertyGetterCallback PropertySetterCallback))
  : list JSStaticValue :=
  (fun pair => {| static_name := pair.1;
                  getProperty := getter pair.2;
                  setProperty := default set_readonly_property (setter pair.2) |})
    <$> map_to_list props.

(** *** Finalization and class creation *)

(** [finalize]: a wrap still attached to [object] is deleted, which destroys
    the native object it owns, and the private data is cleared. *)
Definition finalize (object : ref) : M world unit :=
  modify (fun w =>
    match wraps w !! object with
    | Some wrap =>
        World (destroy (m_object wrap) (natives w)) (delete object (wraps w))
              (next_object w)
    | None => w
    end).

(** The tables of [s_class] that the entry points above do not read. *)
Variable methods : gmap string MethodCallback.
Variable static_methods : gmap string MethodCallback.
Variable static_properties
  : gmap string (PropertyType PropertyGetterCallback PropertySetterCallback).

(** The flags or-ed into [JSPropertyAttributes]. *)
Inductive JSPropertyAttribute : Type := ReadOnly | DontEnum | DontDelete.

(** One row of the [JSStaticFunction] table. *)
Record JSStaticFunction : Type := {
  function_name : string;
  callAsFunction : MethodCallback;
  function_attributes : list JSPropertyAttribute
}.

(** The rows [get_methods] writes through [functions[index++]]. *)
Definition get_methods (table : gmap string MethodCallback) : list JSStaticFunction :=
  (fun pair => {| function_name := pair.1;
                  callAsFunction := pair.2;
                  function_attributes := [ReadOnly; DontEnum; DontDelete] |})
    <$> map_to_list table.

(** [std::map::empty()] *)
Definition table_empty {A : Type} (table : gmap string A) : bool :=
  bool_decide (size table = 0).

(** The members of [JSClassDefinition] that [create_class] and
    [create_constructor_class] write, a null pointer being [None];
    [parentClass], the class of another instantiation, is left out. *)
Record JSClassDefinition : Type := {
  className : string;
  NoAutomaticPrototype : bool;
  staticFunctions : option (list JSStaticFunction);
  staticValues : option (list JSStaticValue);
  class_getProperty : option PropertyGetterCallback;
  class_setProperty : option PropertySetterCallback;
  class_getPropertyNames : option StringPropertyEnumeratorCallback;
  class_finalize : option (ref -> M world unit);
  callAsConstructor : option (ref -> list value -> M world (abi (option ref)));
  hasInstance : bool
}.

Definition kJSClassDefinitionEmpty : JSClassDefinition :=
  {| className := ""; NoAutomaticPrototype := false;
     staticFunctions := None; staticValues := None;
     class_getProperty := None; class_setProperty := None;
     class_getPropertyNames := None; class_finalize := None;
     callAsConstructor := None; hasInstance := false |}.

(** The definition [create_class] hands to [JSClassCreate]. *)
Definition create_class : JSClassDefinition :=
  let index_getter := getter (index_accessor s_class) in
  let string_getter := getter (string_accessor s_class) in
  let any_getter := bool_decide (is_Some index_getter \/ is_Some string_getter) in
  let any_setter := bool_decide (is_Some (setter (index_accessor s_class))
                                 \/ is_Some (setter (string_accessor s_class))) in
  {| className := name s_class;
     NoAutomaticPrototype := false;
     staticFunctions := if table_empty methods then None else Some (get_methods methods);
     staticValues := if table_empty (properties s_class) then None
                     else Some (get_properties (properties s_class));
     class_getProperty := if any_getter then Some get_property else None;
     class_setProperty := if any_getter then Some set_property
                          else if any_setter then Some set_property else None;
     class_getPropertyNames :=
       if bool_decide (is_Some index_getter \/ is_Some (enumerator (string_accessor s_class)))
       then Some get_property_names else None;
     class_finalize := Some finalize;
     callAsConstructor := None;
     hasInstance := false |}.

(** The definition [create_constructor_class] hands to [JSClassCreate],
    [None] when it returns [nullptr] instead. *)
Definition create_constructor_class : option JSClassDefinition :=
  if bool_decide (constructor s_class = None) && table_empty static_methods
     && table_empty static_properties
  then None
  else Some
    {| className := name s_class;
       NoAutomaticPrototype := true;
       staticFunctions := if table_empty static_methods then None
                          else Some (get_methods static_methods);
       staticValues := if table_empty static_properties then None
                       else Some (get_properties static_properties);
       class_getProperty := None; class_setProperty := None;
       class_getPropertyNames := None; class_finalize := None;
       callAsConstructor := match constructor s_class with
                            | Some _ => Some construct
                            | None => None
                            end;
       hasInstance := true |}.

(** [create_constructor], as the callback its object runs for a [new]
    expression: [callAsConstructor] of the constructor class when
    [JSObjectMake] is used, [construct] when [JSObjectMakeConstructor] is. *)
Definition create_constructor
  : option (ref -> list value -> M world (abi (option ref))) :=
  match create_constructor_class with
  | Some definition => callAsConstructor definition
  | None => Some construct
  end.

End ObjectWrap.

Arguments world T : clear implicits.
Arguments ObjectClass T : clear implicits.
Arguments JSClassDefinition T : clear implicits.
Arguments getter {G S} _.
Arguments setter {G S} _.

(** *** Example classes *)

(** A native heap with nothing in it. *)
Definition empty_world : world unit := World ∅ ∅ 1%positive.

Definition no_accessors {G S : Type} : PropertyType G S :=
  {| getter := None; setter := None |}.

(** A constructor callback that allocates its native object, hands it to
    the instance and then fails. *)
Definition assigning_then_throwing : @ConstructorType unit :=
  fun this_object arguments =>
    new_native 5%positive tt ;;;
    set_internal this_object (Some 5%positive) ;;;
    throw (std_exception "bad argument").

Definition assigning_class : ObjectClass unit :=
  {| name := "Assigning";
     constructor := Some assigning_then_throwing;
     properties := ∅;
     index_accessor := no_accessors;
     string_accessor := {| accessors := no_accessors; enumerator := None |} |}.

(** A string enumerator whose native callback fails. *)
Definition failing_enumerator : @StringPropertyEnumeratorType unit :=
  fun object => throw (std_exception "object is detached").

(** A list-like class of three elements: the index getter gives ten times
    the index and signals [std::out_of_range] from index 3 on; there is no
    index setter, and the property [length] has no setter. *)
Definition three_elements : @IndexPropertyGetterType unit :=
  fun object index =>
    if (index <? 3)%N then modify (fun s => (Some (VNumber (10 * index)), s.2))
    else throw (out_of_range "index out of range").

Definition three_elements_length : @PropertyGetterType unit :=
  fun object => modify (fun s => (Some (VNumber 3), s.2)).

(** A class with that enumerator beside the index getter. *)
Definition failing_enumerator_class : ObjectClass unit :=
  {| name := "Detached";
     constructor := None;
     properties := ∅;
     index_accessor := {| getter := Some (wrap_index_getter three_elements);
                          setter := None |};
     string_accessor :=
       {| accessors := no_accessors;
          enumerator := Some (wrap_string_enumerator failing_enumerator) |} |}.

Definition three_elements_class : ObjectClass unit :=
  {| name := "Three";
     constructor := None;
     properties := {[ "length" := {| getter := Some (wrap_getter three_elements_length);
                                     setter := None |} ]};
     index_accessor := {| getter := Some (wrap_index_getter three_elements);
                          setter := None |};
     string_accessor := {| accessors := no_accessors; enumerator := None |} |}.

(** A constructor callback that allocates [t] at [p] and gives it to the
    instance. *)
Definition storing_constructor {T : Type} (p : ptr) (t : T) : @ConstructorType T :=
  fun this_object arguments =>
    new_native p t ;;;
    set_internal this_object (Some p).

Definition storing_class : ObjectClass unit :=
  {| name := "Storing";
     constructor := Some (storing_constructor 5%positive tt);
     properties := ∅;
     index_accessor := no_accessors;
     string_accessor := {| accessors := no_accessors; enumerator := None |} |}.

(** Typed callbacks for a class with all four accessors: the string getter
    answers with the name it is asked for, the index setter refuses, the
    string setter accepts. *)
Definition echo_getter : @StringPropertyGetterType unit :=
  fun object property => modify (fun s => (Some (VString property), s.2)).

Definition frozen_setter : @IndexPropertySetterType unit :=
  fun object index v => throw (std_exception "frozen").

Definition accepting_setter : @StringPropertySetterType unit :=
  fun object property v => ret true.

Definition wrapped_class : ObjectClass unit :=
  {| name := "Wrapped";
     constructor := None;
     properties := ∅;
     index_accessor := {| getter := Some (wrap_index_getter three_elements);
                          setter := Some (wrap_index_setter frozen_setter) |};
     string_accessor :=
       {| accessors := {| getter := Some (wrap_string_getter echo_getter);
                          setter := Some (wrap_string_setter accepting_setter) |};
          enumerator := Some (wrap_string_enumerator (fun object => ret ["size"])) |} |}.

(** A class with one property, [label], that has a setter. *)
Definition wrapped_with_setter : ObjectClass unit :=
  {| name := "Labelled";
     constructor := None;
     properties := {[ "label" := {| getter := None;
                                    setter := Some (wrap_setter (fun object v => ret tt)) |} ]};
     index_accessor := no_accessors;
     string_accessor := {| accessors := no_accessors; enumerator := None |} |}.

(** A list-like class over native lists: the index getter reads the list
    the instance owns at the time of the call, gives its element at the
    index and signals [std::out_of_range] from the list's length on. *)
Definition list_getter : @IndexPropertyGetterType (list value) :=
  fun object index s =>
    match wraps s.2 !! object with
    | Some {| m_object := Some p |} =>
        match natives s.2 !! p with
        | Some elements =>
            match elements !! N.to_nat index with
            | Some v => (Ok tt, (Some v, s.2))
            | None => (Throw (out_of_range "index out of range"), s)
            end
        | None => (Throw (std_exception "no native object"), s)
        end
    | _ => (Throw (std_exception "no native object"), s)
    end.

Definition list_class : ObjectClass (list value) :=
  {| name := "List";
     constructor := None;
     properties := ∅;
     index_accessor := {| getter := Some (wrap_index_getter list_getter);
                          setter := None |};
     string_accessor := {| accessors := no_accessors; enumerator := None |} |}.

(** The instance at address 1 owns the list of three numbers at 5; the
    instance at address 2 owns the empty list at 6. *)
Definition list_world : world (list value) :=
  World (<[5%positive := [VNumber 10; VNumber 20; VNumber 30]]>
           (<[6%positive := []]> ∅))
        (<[1%positive := {| m_object := Some 5%positive |}]>
           (<[2%positive := {| m_object := Some 6%positive |}]> ∅))
        3%positive.

End Jsc.

(** * Properties *)

Module CollectionFacts.
Import Collection.

(** ** Lists *)

Lemma remove_if_filter {A : Type} (pred : A -> bool) (l : list A) :
  remove_if pred l = filter (fun x => pred x = false) l.
Proof.
  induction l as [|x l IH]; simpl; [done|].
  rewrite filter_cons. rewrite IH.
  destruct (pred x); case_decide; congruence.
Qed.

Lemma compare_spec (a b : ref) : compare a b = true <-> a = b.
Proof. unfold compare. by rewrite bool_decide_eq_true. Qed.

Lemma kept_filter (f : ref) (l : list (ref * token)) :
  remove_if (fun p => compare p.1 f) l = filter (fun p => p.1 <> f) l.
Proof.
  induction l as [|p l IH]; simpl; [done|].
  rewrite filter_cons, IH. unfold compare.
  case_bool_decide; case_decide; congruence.
Qed.

Lemma gone_tokens (f : ref) (l : list (ref * token)) (t : token) :
  t ∈ (remove_if (fun p => negb (compare p.1 f)) l).*2 <-> (f, t) ∈ l.
Proof.
  induction l as [|[g u] l IH]; simpl.
  - rewrite !elem_of_nil. done.
  - unfold compare at 1. simpl. destruct (decide (g = f)) as [->|E].
    + rewrite bool_decide_true by done. simpl.
      rewrite !elem_of_cons, IH. split; intros [H|H]; auto; left; congruence.
    + rewrite bool_decide_false by done. simpl.
      rewrite elem_of_cons, IH. split; [auto|]. intros [H|H]; [congruence|done].
Qed.

Lemma lookup_unsubscribe (gone : list token) (subs : gmap token CollectionChangeCallback)
    (t : token) :
  unsubscribe gone subs !! t = if decide (t ∈ gone) then None else subs !! t.
Proof.
  induction gone as [|u gone IH].
  - case_decide as G; [by apply elem_of_nil in G | done].
  - cbn [unsubscribe foldr]. fold (unsubscribe gone subs).
    destruct (decide (u = t)) as [->|E].
    + rewrite lookup_delete_eq. rewrite decide_True; [done|].
      apply elem_of_cons. auto.
    + rewrite lookup_delete_ne by done. rewrite IH.
      destruct (decide (t ∈ gone)) as [G|G].
      * rewrite decide_True; [done|]. apply elem_of_cons. auto.
      * rewrite decide_False; [done|]. rewrite elem_of_cons. intros [?|?]; congruence.
Qed.

Lemma fill_scratch_map (indices : list N) :
  fill_scratch indices = from_number <$> indices.
Proof.
  unfold fill_scratch.
  enough (G : forall acc, fold_left (fun scratch index => scratch ++ [from_number index])
                             indices acc = acc ++ (from_number <$> indices))
    by apply (G []).
  induction indices as [|i l IH]; intros acc; simpl.
  - by rewrite app_nil_r.
  - rewrite IH. by rewrite <- app_assoc.
Qed.

(** ** remove_listener *)

(** C1, as the code has it: [remove_listener f] takes out every pair whose
    stored reference is [f] itself, not only the first, and unsubscribes the
    token of each; every other pair stays, in its order, also a pair whose
    reference is another object of equal content. *)
Theorem remove_listener_every_match (f : ref) (w : world) :
  m_notification_tokens (remove_listener f w)
    = filter (fun p => p.1 <> f) (m_notification_tokens w)
  /\ (forall t, subscribers (remove_listener f w) !! t
                = if decide ((f, t) ∈ m_notification_tokens w) then None
                  else subscribers w !! t)
  /\ (forall g t, g <> f -> heap w !! g = heap w !! f ->
                  (g, t) ∈ m_notification_tokens w ->
                  (g, t) ∈ m_notification_tokens (remove_listener f w))
  /\ heap (remove_listener f w) = heap w
  /\ calls (remove_listener f w) = calls w.
Proof.
  unfold remove_listener; simpl. repeat split.
  - apply kept_filter.
  - intros t. rewrite lookup_unsubscribe.
    pose proof (gone_tokens f (m_notification_tokens w) t) as G.
    destruct (decide ((f, t) ∈ m_notification_tokens w)) as [I|I].
    + rewrite decide_True; [done|]. tauto.
    + rewrite decide_False; [done|]. tauto.
  - intros g t Hne _ Hin. rewrite kept_filter. apply list_elem_of_filter. done.
Qed.

Lemma remove_listener_every_match_witness :
  (2%positive, 2%positive) ∈ m_notification_tokens (remove_listener 1%positive registered_twice).
Proof.
  apply (remove_listener_every_match 1%positive registered_twice).
  - discriminate.
  - reflexivity.
  - vm_compute. apply list_elem_of_In. simpl. tauto.
Defined.

(** C1, as stated, fails: with [f] registered twice, one [remove_listener f]
    leaves no registration of [f], where removing the first match would
    leave the second. *)
Lemma remove_listener_not_first_only :
  ~ (forall (f : ref) (w : world),
       m_notification_tokens (remove_listener f w)
       = remove_first_match f (m_notification_tokens w)).
Proof.
  intros H. specialize (H 1%positive registered_twice).
  vm_compute in H. discriminate H.
Qed.

(** ** Delivery to a simple callback *)

Ltac run :=
  repeat first
    [ progress cbn beta iota zeta delta [fst snd heap next_ref calls subscribers next_token
                                         m_notification_tokens is_undefined default what
                                         protected_this before_fn after_fn error_fn]
    | progress unfold add_listener, lambda, before, after,
        error, to_array, create_array, create_empty, alloc,
        get_property, get_function, Function_call, emplace_back,
        add_notification_callback, validated_to_function, validated_to_object,
        is_function, notify, deliver, notify_error, deliver_error,
        bind, ret, modify, throw ].

Ltac lookup_heap :=
  repeat first [ rewrite lookup_insert_eq | rewrite lookup_insert_ne by lia ].

Lemma create_array_property_plain (o : ref) (indices : list N) (name : string)
    (props : gmap string value) (w : world) :
  heap w !! o = Some (Plain props) ->
  o <> next_ref w ->
  create_array_property o indices name w
  = (Ok tt,
     World (<[o := Plain (<[name := VObject (next_ref w)]> props)]>
              (<[next_ref w := Array (from_number <$> indices)]> (heap w)))
           (Pos.succ (next_ref w)) (calls w) (subscribers w) (next_token w)
           (m_notification_tokens w)).
Proof.
  intros Ho Hne. unfold create_array_property, set_property, set_heap. run.
  rewrite lookup_insert_ne by done. rewrite Ho. by rewrite fill_scratch_map.
Qed.

Lemma create_collection_change_set_heap (changes : CollectionChangeSet) (w : world) :
  exists w',
    create_collection_change_set changes w = (Ok (next_ref w), w')
    /\ calls w' = calls w
    /\ subscribers w' = subscribers w
    /\ next_token w' = next_token w
    /\ m_notification_tokens w' = m_notification_tokens w
    /\ exists props,
        heap w' !! next_ref w = Some (Plain props)
        /\ dom props = {[ "deletions"; "insertions"; "modifications" ]}
        /\ (exists a, props !! "deletions" = Some (VObject a)
              /\ heap w' !! a = Some (Array (VNumber <$> as_indexes (deletions changes))))
        /\ (exists a, props !! "insertions" = Some (VObject a)
              /\ heap w' !! a = Some (Array (VNumber <$> as_indexes (insertions changes))))
        /\ (exists a, props !! "modifications" = Some (VObject a)
              /\ heap w' !! a = Some (Array (VNumber <$> as_indexes (modifications changes)))).
Proof.
  unfold create_collection_change_set, create_empty, alloc.
  unfold bind at 1. cbn beta iota.
  unfold bind at 1.
  erewrite create_array_property_plain; cycle 1.
  { cbn [heap]. apply lookup_insert_eq. }
  { cbn [next_ref]. lia. }
  cbn [heap next_ref calls subscribers next_token m_notification_tokens].
  unfold bind at 1.
  erewrite create_array_property_plain; cycle 1.
  { cbn [heap]. apply lookup_insert_eq. }
  { cbn [next_ref]. lia. }
  cbn [heap next_ref calls subscribers next_token m_notification_tokens].
  unfold bind at 1.
  erewrite create_array_property_plain; cycle 1.
  { cbn [heap]. apply lookup_insert_eq. }
  { cbn [next_ref]. lia. }
  cbn [heap next_ref calls subscribers next_token m_notification_tokens].
  unfold ret. eexists. split; [reflexivity|].
  cbn [heap next_ref calls subscribers next_token m_notification_tokens].
  do 4 (split; [reflexivity|]).
  eexists. split; [apply lookup_insert_eq|].
  split.
  { rewrite !dom_insert_L, dom_empty_L. set_solver. }
  repeat split; eexists; (split; [by simplify_map_eq|]); lookup_heap; reflexivity.
Qed.

Lemma bind_ok {S A B : Type} (m : M S A) (k : A -> M S B) (s s' : S) (a : A) :
  m s = (Ok a, s') -> bind m k s = k a s'.
Proof. intros E. unfold bind. by rewrite E. Qed.

(** C2: a function registered with [add_listener] is subscribed under the
    token of its registration, and in every later state in which that
    subscription stands, whatever else has been registered since, one
    delivered change set calls that function once, with two arguments: the
    collection instance and one new object whose properties are exactly
    [deletions], [insertions] and [modifications], each an array of the
    indices of the change set's index set of that name, in ascending
    order. *)
Theorem simple_callback_delivery (w : world) (this_object f : ref) (source : string)
    (changes : CollectionChangeSet) :
  heap w !! f = Some (Function source) ->
  increasing (deletions changes) ->
  increasing (insertions changes) ->
  increasing (modifications changes) ->
  exists w1,
    add_listener this_object (VObject f) w = (Ok tt, w1)
    /\ m_notification_tokens w1 = m_notification_tokens w ++ [(f, next_token w)]
    /\ subscribers w1 !! next_token w = Some (Lambda this_object f)
    /\ forall w',
         subscribers w' !! next_token w = Some (Lambda this_object f) ->
         exists w2 o props,
           notify (next_token w) changes w' = (Ok tt, w2)
           /\ calls w2
              = calls w' ++ [Call (Some f) this_object [VObject this_object; VObject o]]
           /\ heap w2 !! o = Some (Plain props)
           /\ dom props = {[ "deletions"; "insertions"; "modifications" ]}
           /\ index_array (heap w2) (props !! "deletions") (deletions changes)
           /\ index_array (heap w2) (props !! "insertions") (insertions changes)
           /\ index_array (heap w2) (props !! "modifications") (modifications changes).
Proof.
  intros Hf Hd Hi Hm.
  set (w1' := World (heap w) (next_ref w) (calls w)
                (<[next_token w := Lambda this_object f]> (subscribers w))
                (Pos.succ (next_token w))
                (m_notification_tokens w ++ [(f, next_token w)])).
  assert (A : add_listener this_object (VObject f) w = (Ok tt, w1')).
  { run. repeat (rewrite Hf; run). reflexivity. }
  exists w1'. split; [exact A|]. split; [reflexivity|].
  split; [apply lookup_insert_eq|].
  intros w' Hsub.
  destruct (create_collection_change_set_heap changes w')
    as (w2 & E & Ec & _ & _ & _ & props & Ho & Hdom & (d & Pd & Ad) & (i & Pi & Ai) & (m & Pm & Am)).
  exists (World (heap w2) (next_ref w2) (calls w2 ++ [Call (Some f) this_object
            [VObject this_object; VObject (next_ref w')]]) (subscribers w2)
            (next_token w2) (m_notification_tokens w2)).
  exists (next_ref w'), props.
  split.
  { unfold notify. rewrite Hsub.
    unfold deliver, lambda. erewrite bind_ok by exact E. reflexivity. }
  cbn [calls heap]. rewrite Ec.
  split; [reflexivity|]. split; [exact Ho|]. split; [exact Hdom|].
  unfold index_array. repeat split; eauto.
Qed.

Lemma simple_callback_delivery_witness :
  exists w2 o props,
    notify 1%positive round_trip_changes two_listeners = (Ok tt, w2)
    /\ calls w2 = calls two_listeners ++ [Call (Some 1%positive) 7%positive
                                               [VObject 7%positive; VObject o]]
    /\ heap w2 !! o = Some (Plain props)
    /\ dom props = {[ "deletions"; "insertions"; "modifications" ]}
    /\ index_array (heap w2) (props !! "deletions") {| as_indexes := [2%N] |}
    /\ index_array (heap w2) (props !! "insertions") {| as_indexes := [0%N; 1%N] |}
    /\ index_array (heap w2) (props !! "modifications") {| as_indexes := [] |}.
Proof.
  destruct (simple_callback_delivery two_functions 7%positive 1%positive "function () {}"
              round_trip_changes) as (w1 & _ & _ & _ & H).
  - reflexivity.
  - repeat constructor.
  - repeat constructor.
  - repeat constructor.
  - exact (H two_listeners eq_refl).
Defined.

(** ** Delivery to a hook object *)

Lemma get_function_hook (w : world) (obj : ref) (props : gmap string value) (name : string) :
  heap w !! obj = Some (Plain props) ->
  optional_function (heap w) props name ->
  get_function obj name w = (Ok (hook props name), w).
Proof.
  intros Ho Hn. unfold get_function, get_property, optional_function, hook in *.
  unfold bind at 1. rewrite Ho.
  destruct (props !! name) as [[| | |f|]|]; cbv [default from_option id is_undefined];
    try done.
  destruct Hn as [source Hf]. run. by rewrite Hf.
Qed.

Lemma add_listener_hooks (w : world) (this_object obj : ref) (props : gmap string value) :
  heap w !! obj = Some (Plain props) ->
  optional_function (heap w) props "before" ->
  optional_function (heap w) props "after" ->
  optional_function (heap w) props "error" ->
  add_listener this_object (VObject obj) w
  = (Ok tt,
     World (heap w) (next_ref w) (calls w)
           (<[next_token w := Hooks {| protected_this := this_object;
                                       before_fn := hook props "before";
                                       after_fn := hook props "after";
                                       error_fn := hook props "error" |}]> (subscribers w))
           (Pos.succ (next_token w))
           (m_notification_tokens w ++ [(obj, next_token w)])).
Proof.
  intros Ho Hb Ha He. unfold add_listener.
  unfold bind at 1. unfold is_function. rewrite Ho.
  unfold validated_to_object. unfold bind at 1. unfold ret at 1.
  erewrite bind_ok by (by apply get_function_hook).
  erewrite bind_ok by (by apply get_function_hook).
  erewrite bind_ok by (by apply get_function_hook).
  reflexivity.
Qed.



(** C4: a hook object with an [error] hook is subscribed with the handle of
    that hook, and in every later state in which the subscription stands a
    failure of the pipeline calls that hook with two arguments, the
    collection instance and a string: the exception's [what()] when it is a
    [std::exception], and ["unknown error"] otherwise. *)
Theorem error_hook_delivery (w : world) (this_object obj f : ref)
    (props : gmap string value) (source : string) (exception : exn) :
  heap w !! obj = Some (Plain props) ->
  optional_function (heap w) props "before" ->
  optional_function (heap w) props "after" ->
  props !! "error" = Some (VObject f) ->
  heap w !! f = Some (Function source) ->
  exists w1 c,
    add_listener this_object (VObject obj) w = (Ok tt, w1)
    /\ subscribers w1 !! next_token w = Some (Hooks c)
    /\ protected_this c = this_object
    /\ error_fn c = Some f
    /\ forall w',
         subscribers w' !! next_token w = Some (Hooks c) ->
         exists w2,
           notify_error (next_token w) exception w' = (Ok tt, w2)
           /\ calls w2 = calls w' ++
                [Call (Some f) this_object
                      [VObject this_object;
                       VString match exception with
                               | out_of_range description
                               | invalid_argument description
                               | std_exception description => description
                               | non_std => "unknown error"
                               end]]
           /\ heap w2 = heap w'.
Proof.
  intros Ho Hb Ha Pe Hf.
  assert (He : optional_function (heap w) props "error").
  { unfold optional_function. rewrite Pe. eauto. }
  rewrite (add_listener_hooks w this_object obj props Ho Hb Ha He).
  unfold hook at 3. rewrite Pe.
  eexists _, _. split; [reflexivity|].
  split; [apply lookup_insert_eq|].
  split; [reflexivity|]. split; [reflexivity|].
  intros w' Hsub. unfold notify_error. rewrite Hsub.
  destruct exception; eexists; (split; [reflexivity|]); split; reflexivity.
Qed.

Lemma error_hook_delivery_witness :
  exists w2,
    notify_error 1%positive non_std two_error_hooks = (Ok tt, w2)
    /\ calls w2 = calls two_error_hooks ++
         [Call (Some 2%positive) 7%positive [VObject 7%positive; VString "unknown error"]]
    /\ heap w2 = heap two_error_hooks.
Proof.
  destruct (error_hook_delivery error_only 7%positive 4%positive 2%positive
              (<["error" := VObject 2%positive]> ∅) "function () {}" non_std)
    as (w1 & c & Hadd & Hsub & _ & _ & H).
  - reflexivity.
  - exact I.
  - exact I.
  - reflexivity.
  - reflexivity.
  - apply H.
    vm_compute in Hadd. injection Hadd as <-.
    rewrite <- Hsub. vm_compute. reflexivity.
Defined.

End CollectionFacts.

Module JscFacts.
Import Jsc.

(** ** Index names *)

Lemma to_uint_nonnil (n : N) : N.to_uint n <> Decimal.Nil.
Proof. destruct n as [|p]; [discriminate | apply DecimalPos.Unsigned.to_uint_nonnil]. Qed.

Lemma int_of_to_string (index : N) :
  NilZero.int_of_string (to_string index) = Some (Decimal.Pos (N.to_uint index)).
Proof.
  unfold to_string.
  change (NilZero.string_of_uint (N.to_uint index))
    with (NilZero.string_of_int (Decimal.Pos (N.to_uint index))).
  apply NilZero.isi.
  - intros [= E]. by apply to_uint_nonnil in E.
  - discriminate.
Qed.

Lemma of_int_to_uint (index : N) : Z.of_int (Decimal.Pos (N.to_uint index)) = Z.of_N index.
Proof.
  cbn [Z.of_int]. unfold Z.of_uint.
  change (Pos.of_uint (N.to_uint index)) with (N.of_uint (N.to_uint index)).
  by rewrite DecimalN.Unsigned.of_to.
Qed.

Lemma validated_positive_index_to_string {S : Type} (index : N) (s : S) :
  (index <= 4294967295)%N ->
  validated_positive_index (to_string index) s = (Ok index, s).
Proof.
  intros Hi. unfold validated_positive_index.
  rewrite int_of_to_string, of_int_to_uint.
  destruct (Z.ltb_spec (Z.of_N index) 0) as [H|_]; [lia|].
  destruct (Z.ltb_spec 4294967295 (Z.of_N index)) as [H|_]; [lia|].
  by rewrite N2Z.id.
Qed.

Lemma validated_positive_index_large {S : Type} (index : N) (s : S) :
  (4294967295 < index)%N ->
  exists message,
    validated_positive_index (to_string index) s = (Throw (out_of_range message), s).
Proof.
  intros Hi. unfold validated_positive_index.
  rewrite int_of_to_string, of_int_to_uint.
  destruct (Z.ltb_spec (Z.of_N index) 0) as [H|_]; [lia|].
  destruct (Z.ltb_spec 4294967295 (Z.of_N index)) as [_|H]; [|lia].
  eexists. reflexivity.
Qed.

(** ** Reading an index *)

Lemma wrap_index_getter_out_of_range {T : Type} (F : @IndexPropertyGetterType T)
    (object : ref) (index : N) (w : world T) (message : string)
    (s' : ReturnValue * world T) :
  F object index (None, w) = (Throw (out_of_range message), s') ->
  wrap_index_getter F object index w = (Ok (Some VUndefined, None), s'.2).
Proof.
  intros E. unfold wrap_index_getter, returning. rewrite E. by destruct s'.
Qed.

Lemma wrap_index_getter_value {T : Type} (F : @IndexPropertyGetterType T)
    (object : ref) (index : N) (w w' : world T) (return_value : ReturnValue) :
  F object index (None, w) = (Ok tt, (return_value, w')) ->
  wrap_index_getter F object index w = (Ok (return_value, None), w').
Proof.
  intros E. unfold wrap_index_getter, returning. by rewrite E.
Qed.

(** C5: take a class whose index getter is the trampoline of [F], and a
    state in which [F] gives [elements j] for the indices [j] below a length
    [L] and signals [std::out_of_range] from [L] on.  In that state, reading
    index [i] through the trampoline or through [get_property] returns
    [elements i] when [i < L] and the undefined value when [L <= i]; in both
    cases the call returns normally with an empty exception slot, in the
    state the getter reached (for a name beyond [uint32_t] the getter is not
    run at all). *)
Theorem index_read {T : Type} (s_class : ObjectClass T) (F : @IndexPropertyGetterType T)
    (L : N) (elements : N -> value) (object : ref) (w : world T) (i : N) :
  getter (index_accessor s_class) = Some (wrap_index_getter F) ->
  (L <= 4294967296)%N ->
  (forall j, (L <= j)%N ->
     exists message, (F object j (None, w)).1 = Throw (out_of_range message)) ->
  (forall j, (j < L)%N ->
     (F object j (None, w)).1 = Ok tt /\ (F object j (None, w)).2.1 = Some (elements j)) ->
  ((L <= i)%N ->
     wrap_index_getter F object i w
     = (Ok (Some VUndefined, None), (F object i (None, w)).2.2)
     /\ get_property s_class object (to_string i) w
        = (Ok (Some VUndefined, None),
           if decide (i <= 4294967295)%N then (F object i (None, w)).2.2 else w))
  /\ ((i < L)%N ->
     wrap_index_getter F object i w
     = (Ok (Some (elements i), None), (F object i (None, w)).2.2)
     /\ get_property s_class object (to_string i) w
        = (Ok (Some (elements i), None), (F object i (None, w)).2.2)).
Proof.
  intros Hg HL Hout Hin. split; intros Hi.
  - destruct (Hout i Hi) as (message & E).
    destruct (F object i (None, w)) as [r [rv w']] eqn:EF. cbn in E. subst r.
    pose proof (wrap_index_getter_out_of_range F object i w message _ EF) as W.
    cbn [fst snd] in *. split; [exact W|].
    unfold get_property. rewrite Hg.
    destruct (decide (i <= 4294967295)%N) as [Hr|Hr].
    + unfold bind, try_catch.
      rewrite (validated_positive_index_to_string i w Hr), W. reflexivity.
    + destruct (validated_positive_index_large i w ltac:(lia)) as (m & P).
      unfold bind, try_catch. rewrite P. reflexivity.
  - destruct (Hin i Hi) as (E1 & E2).
    destruct (F object i (None, w)) as [r [rv w']] eqn:EF. cbn in E1, E2. subst r rv.
    pose proof (wrap_index_getter_value F object i w w' _ EF) as W.
    cbn [fst snd]. split; [exact W|].
    unfold get_property. rewrite Hg.
    unfold bind, try_catch.
    rewrite (validated_positive_index_to_string i w ltac:(lia)), W. reflexivity.
Qed.

Lemma index_read_witness :
  get_property list_class 1%positive "7" list_world
  = (Ok (Some VUndefined, None), list_world)
  /\ get_property list_class 1%positive "2" list_world
     = (Ok (Some (VNumber 30), None), list_world)
  /\ get_property list_class 2%positive "0" list_world
     = (Ok (Some VUndefined, None), list_world).
Proof.
  assert (Hout : forall elements L object p,
            wraps list_world !! object = Some {| m_object := Some p |} ->
            natives list_world !! p = Some elements ->
            L = N.of_nat (length elements) ->
            forall j, (L <= j)%N ->
              exists message,
                (list_getter object j (None, list_world)).1 = Throw (out_of_range message)).
  { intros elements L object p Hw Hn -> j Hj. unfold list_getter. cbn [fst snd].
    rewrite Hw, Hn. rewrite (lookup_ge_None_2 elements (N.to_nat j)) by lia.
    eexists. reflexivity. }
  assert (Hin : forall elements L object p,
            wraps list_world !! object = Some {| m_object := Some p |} ->
            natives list_world !! p = Some elements ->
            L = N.of_nat (length elements) ->
            forall j, (j < L)%N ->
              (list_getter object j (None, list_world)).1 = Ok tt
              /\ (list_getter object j (None, list_world)).2.1
                 = Some (default VUndefined (elements !! N.to_nat j))).
  { intros elements L object p Hw Hn -> j Hj. unfold list_getter. cbn [fst snd].
    rewrite Hw, Hn.
    destruct (lookup_lt_is_Some_2 elements (N.to_nat j) ltac:(lia)) as [v ->].
    split; reflexivity. }
  split; [|split].
  - refine (proj1 (proj1 (index_read list_class list_getter 3
                            (fun j => default VUndefined
                               ([VNumber 10; VNumber 20; VNumber 30] !! N.to_nat j))
                            1%positive list_world 7%N eq_refl ltac:(lia)
                            (Hout _ 3%N 1%positive 5%positive eq_refl eq_refl eq_refl)
                            (Hin _ 3%N 1%positive 5%positive eq_refl eq_refl eq_refl))
                     ltac:(lia))).
  - refine (proj2 (proj2 (index_read list_class list_getter 3
                            (fun j => default VUndefined
                               ([VNumber 10; VNumber 20; VNumber 30] !! N.to_nat j))
                            1%positive list_world 2%N eq_refl ltac:(lia)
                            (Hout _ 3%N 1%positive 5%positive eq_refl eq_refl eq_refl)
                            (Hin _ 3%N 1%positive 5%positive eq_refl eq_refl eq_refl))
                     ltac:(lia))).
  - refine (proj1 (proj1 (index_read list_class list_getter 0
                            (fun j => default VUndefined ([] !! N.to_nat j))
                            2%positive list_world 0%N eq_refl ltac:(lia)
                            (Hout _ 0%N 2%positive 6%positive eq_refl eq_refl eq_refl)
                            (Hin _ 0%N 2%positive 6%positive eq_refl eq_refl eq_refl))
                     ltac:(lia))).
Defined.

(** ** Exceptions at the trampolines *)

(** C6, as the code has it: each of the seven trampolines that have an
    exception slot catches a [std::exception] thrown by its typed callback,
    returns normally and stores the engine error made from the exception in
    the slot; the index getter alone answers [std::out_of_range] with the
    undefined value and an empty slot. *)
Theorem trampolines_convert_std_exceptions {T : Type} (e : exn) (w w' : world T)
    (return_value : ReturnValue) (function this_object object : ref)
    (arguments : list value) (property : string) (index : N) (v : value) :
  is_std_exception e = true ->
  (forall F : MethodType,
     F this_object arguments (None, w) = (Throw e, (return_value, w')) ->
     wrap_method F function this_object arguments w
     = (Ok (return_value, Some (Exception_value_of e)), w'))
  /\ (forall F : PropertyGetterType,
     F object (None, w) = (Throw e, (return_value, w')) ->
     wrap_getter F object property w
     = (Ok (return_value, Some (Exception_value_of e)), w'))
  /\ (forall F : PropertySetterType,
     F object v w = (Throw e, w') ->
     wrap_setter F object property v w = (Ok (false, Some (Exception_value_of e)), w'))
  /\ (forall F : IndexPropertyGetterType,
     F object index (None, w) = (Throw e, (return_value, w')) ->
     wrap_index_getter F object index w
     = (Ok match e with
           | out_of_range _ => (Some VUndefined, None)
           | _ => (return_value, Some (Exception_value_of e))
           end, w'))
  /\ (forall F : IndexPropertySetterType,
     F object index v w = (Throw e, w') ->
     wrap_index_setter F object index v w
     = (Ok (false, Some (Exception_value_of e)), w'))
  /\ (forall F : StringPropertyGetterType,
     F object property (None, w) = (Throw e, (return_value, w')) ->
     wrap_string_getter F object property w
     = (Ok (return_value, Some (Exception_value_of e)), w'))
  /\ (forall F : StringPropertySetterType,
     F object property v w = (Throw e, w') ->
     wrap_string_setter F object property v w
     = (Ok (false, Some (Exception_value_of e)), w')).
Proof.
  intros He.
  repeat split; intros F E;
    unfold wrap_method, wrap_getter, wrap_setter, wrap_index_getter, wrap_index_setter,
      wrap_string_getter, wrap_string_setter, returning, set_exception, try_catch,
      catch_std_exception, bind;
    rewrite E; destruct e; try discriminate He; reflexivity.
Qed.

Lemma trampolines_convert_std_exceptions_witness :
  wrap_method (fun _ _ => throw (std_exception "boom")) 1%positive 2%positive []
              empty_world
  = (Ok (None, Some (VError "boom")), empty_world).
Proof.
  apply (trampolines_convert_std_exceptions (std_exception "boom") empty_world empty_world
           None 1%positive 2%positive 2%positive [] "p" 0%N VUndefined eq_refl).
  reflexivity.
Defined.

(** C6, as stated, fails: the index getter turns [std::out_of_range] into
    the undefined value and leaves the exception slot empty; the string
    enumerator has no handler, so what its callback throws leaves the
    trampoline; and no trampoline catches what is not a [std::exception]. *)
Lemma trampolines_not_all_converting :
  wrap_index_getter (fun _ _ => throw (out_of_range "no such index")) 1%positive 0%N
                    empty_world
  = (Ok (Some VUndefined, None), empty_world)
  /\ wrap_string_enumerator failing_enumerator 1%positive ([], empty_world)
     = (Throw (std_exception "object is detached"), ([], empty_world))
  /\ wrap_method (fun _ _ => throw non_std) 1%positive 2%positive [] empty_world
     = (Throw non_std, empty_world).
Proof. repeat split. Qed.

(** ** Writes to what is read-only *)

Lemma get_properties_rows {T : Type}
    (props : gmap string (PropertyType (@PropertyGetterCallback T) PropertySetterCallback))
    (row : JSStaticValue) :
  row ∈ get_properties props <->
  exists p prop, props !! p = Some prop
                 /\ row = {| static_name := p; getProperty := getter prop;
                             setProperty := default set_readonly_property (setter prop) |}.
Proof.
  unfold get_properties. rewrite list_elem_of_fmap. split.
  - intros ([p prop] & -> & Hin). apply elem_of_map_to_list in Hin. eauto.
  - intros (p & prop & Hp & ->). exists (p, prop). split; [done|].
    by apply elem_of_map_to_list.
Qed.

(** C7: a property with a getter and no setter gets [set_readonly_property]
    in the table of static values; a write through it fails with the error
    "Cannot assign to read only property '<name>'" and changes nothing.  In
    a class with an index getter and no index setter a write to index [n]
    fails with the error "Cannot assigned to read only index <n>" and
    changes nothing. *)
Theorem read_only_writes {T : Type} (s_class : ObjectClass T) (object : ref) (v : value)
    (w : world T) :
  (forall p prop,
     properties s_class !! p = Some prop -> setter prop = None ->
     (exists row, row ∈ get_properties (properties s_class) /\ static_name row = p)
     /\ forall row, row ∈ get_properties (properties s_class) -> static_name row = p ->
          setProperty row object p v w
          = (Ok (false,
                 Some (VError ("Cannot assign to read only property '" +:+ p +:+ "'"))),
             w))
  /\ (forall n index_getter,
     getter (index_accessor s_class) = Some index_getter ->
     setter (index_accessor s_class) = None ->
     (n <= 4294967295)%N ->
     set_property s_class object (to_string n) v w
     = (Ok (false, Some (VError ("Cannot assigned to read only index " +:+ to_string n))),
        w)).
Proof.
  split.
  - intros p prop Hp Hs. split.
    + eexists. split; [apply get_properties_rows; eauto|]. reflexivity.
    + intros row Hrow Hname. apply get_properties_rows in Hrow as (q & prop' & Hq & ->).
      cbn in Hname. subst q. rewrite Hp in Hq. injection Hq as <-.
      cbn [setProperty]. rewrite Hs. reflexivity.
  - intros n g Hg Hs Hn. unfold set_property. rewrite Hg, Hs.
    rewrite bool_decide_true by (right; eauto).
    unfold bind, try_catch.
    rewrite (validated_positive_index_to_string n w Hn). reflexivity.
Qed.

Lemma read_only_writes_witness :
  (exists row, row ∈ get_properties (properties three_elements_class)
               /\ static_name row = "length"
               /\ setProperty row 1%positive "length" (VNumber 5) empty_world
                  = (Ok (false,
                         Some (VError "Cannot assign to read only property 'length'")),
                     empty_world))
  /\ set_property three_elements_class 1%positive "2" (VNumber 5) empty_world
     = (Ok (false, Some (VError "Cannot assigned to read only index 2")), empty_world).
Proof.
  destruct (read_only_writes three_elements_class 1%positive (VNumber 5) empty_world)
    as [P I].
  split.
  - destruct (P "length" _ eq_refl eq_refl) as [(row & Hin & Hname) R].
    exists row. split; [exact Hin|]. split; [exact Hname|]. exact (R row Hin Hname).
  - exact (I 2%N _ eq_refl eq_refl ltac:(lia)).
Defined.

(** ** Construction *)

(** C8, as the code has it: without a constructor callback [construct]
    reports "Illegal constructor" and makes no instance.  When the callback
    throws a [std::exception], the exception becomes the engine error in the
    slot and the instance allocated before the call is returned as the
    callback left it, neither destroyed nor reset: its native pointer is
    null when the callback did not touch its wrap. *)
Theorem construct_outcomes {T : Type} (s_class : ObjectClass T) (constructor_object : ref)
    (arguments : list value) (w : world T) :
  (constructor s_class = None ->
     construct s_class constructor_object arguments w
     = (Ok (None, Some (VError "Illegal constructor")), w))
  /\ (forall ctor e w',
     constructor s_class = Some ctor ->
     ctor (next_object w) arguments
          (World (natives w) (<[next_object w := {| m_object := None |}]> (wraps w))
                 (Pos.succ (next_object w)))
     = (Throw e, w') ->
     is_std_exception e = true ->
     construct s_class constructor_object arguments w
     = (Ok (Some (next_object w), Some (Exception_value_of e)), w')
     /\ (wraps w' !! next_object w
         = <[next_object w := {| m_object := None |}]> (wraps w) !! next_object w ->
         wraps w' !! next_object w = Some {| m_object := None |})).
Proof.
  split.
  - intros Hc. unfold construct. by rewrite Hc.
  - intros ctor e w' Hc E He. split.
    + unfold construct. rewrite Hc. unfold bind at 1. unfold create.
      unfold try_catch, bind, catch_std_exception. rewrite E, He. reflexivity.
    + intros ->. apply lookup_insert_eq.
Qed.

Lemma construct_outcomes_witness :
  exists w',
    construct assigning_class 9%positive [] empty_world
    = (Ok (Some 1%positive, Some (VError "bad argument")), w').
Proof.
  eexists.
  refine (proj1 (proj2 (construct_outcomes assigning_class 9%positive [] empty_world)
                   assigning_then_throwing (std_exception "bad argument") _
                   eq_refl _ eq_refl)).
  reflexivity.
Defined.

(** C8, as stated, fails: a constructor callback that gives the instance
    its native object and then throws leaves an instance that is not
    empty. *)
Lemma construct_instance_not_always_empty :
  exists this_object w',
    construct assigning_class 9%positive [] empty_world
    = (Ok (Some this_object, Some (VError "bad argument")), w')
    /\ wraps w' !! this_object = Some {| m_object := Some 5%positive |}
    /\ wraps w' !! this_object <> Some {| m_object := None |}.
Proof.
  eexists _, _. split; [reflexivity|]. split; [reflexivity|]. discriminate.
Qed.

(** ** Enumeration *)

Lemma add_index_names_names {T : Type} (i : N) (count : nat) (acc : list string)
    (w : world T) :
  add_index_names i count (acc, w)
  = (Ok tt, (acc ++ ((fun k => to_string (i + N.of_nat k)) <$> seq 0 count), w)).
Proof.
  revert i acc. induction count as [|count IH]; intros i acc.
  - cbn. by rewrite app_nil_r.
  - cbn [add_index_names]. unfold bind, JSPropertyNameAccumulatorAddName, modify.
    cbn [fst snd]. rewrite IH. cbn [seq fmap list_fmap].
    rewrite <- app_assoc. cbn [app]. rewrite N.add_0_r.
    do 4 f_equal. rewrite <- seq_shift, <- list_fmap_compose.
    apply list_fmap_ext. intros _ k _. cbn. f_equal. lia.
Qed.

Lemma add_names_names {T : Type} (names acc : list string) (w : world T) :
  add_names names (acc, w) = (Ok tt, (acc ++ names, w)).
Proof.
  revert acc. induction names as [|name names IH]; intros acc.
  - cbn. by rewrite app_nil_r.
  - cbn [add_names]. unfold bind, JSPropertyNameAccumulatorAddName, modify.
    cbn [fst snd]. rewrite IH. by rewrite <- app_assoc.
Qed.

(** What [get_property_names] does when the string enumerator returns: the
    index names [0 .. length-1] come first, or none of them when the length
    query throws a [std::exception], and the enumerator's names follow. *)
Lemma get_property_names_returns {T : Type} (s_class : ObjectClass T)
    (validated_get_length : ref -> M (world T) N) (F : StringPropertyEnumeratorType)
    (index_getter : IndexPropertyGetterCallback)
    (object : ref) (acc names : list string) (w w1 w2 : world T) (r : outcome N) :
  getter (index_accessor s_class) = Some index_getter ->
  enumerator (string_accessor s_class) = Some (wrap_string_enumerator F) ->
  validated_get_length object w = (r, w1) ->
  match r with Ok _ => True | Throw e => is_std_exception e = true end ->
  F object w1 = (Ok names, w2) ->
  get_property_names s_class validated_get_length object (acc, w)
  = (Ok tt,
     (acc ++ match r with
             | Ok length => (fun k => to_string (N.of_nat k)) <$> seq 0 (N.to_nat length)
             | Throw _ => []
             end ++ names, w2)).
Proof.
  intros Hg He El Hr EF. unfold get_property_names. rewrite Hg, He.
  unfold bind at 1. unfold try_catch, bind at 1, lift at 1. cbn [fst snd].
  rewrite El. destruct r as [length|e].
  - rewrite add_index_names_names.
    unfold wrap_string_enumerator, bind, lift. cbn [fst snd]. rewrite EF.
    rewrite add_names_names. by rewrite <- app_assoc.
  - rewrite Hr. unfold ret.
    unfold wrap_string_enumerator, bind, lift. cbn [fst snd]. rewrite EF.
    by rewrite add_names_names.
Qed.

(** C9 at a class whose string enumerator throws: [get_property_names] has
    added the index names and then unwinds with the enumerator's exception;
    nothing catches it. *)
Lemma get_property_names_unwinds :
  get_property_names failing_enumerator_class (fun _ => ret 3%N) 1%positive
                     ([], empty_world)
  = (Throw (std_exception "object is detached"), (["0"; "1"; "2"], empty_world)).
Proof. reflexivity. Qed.

(** ** Assignment of the native object *)

(** C10: assigning to a wrap the pointer it holds changes nothing, so the
    object it owns stays alive; assigning another pointer makes the wrap
    hold that one and destroys the object owned before; assigning the same
    pointer a second time changes nothing more. *)
Theorem assign_idempotent {T : Type} (this : ObjectWrap) (object : option ptr)
    (live : gmap ptr T) :
  (m_object this = object -> assign this object live = (this, live))
  /\ (m_object this <> object ->
      assign this object live = ({| m_object := object |}, destroy (m_object this) live))
  /\ m_object (assign this object live).1 = object
  /\ assign (assign this object live).1 object (assign this object live).2
     = assign this object live
  /\ (forall p, m_object this = Some p -> object <> Some p ->
                (assign this object live).2 !! p = None)
  /\ (forall q, m_object this <> Some q ->
                (assign this object live).2 !! q = live !! q).
Proof.
  unfold assign. destruct (decide (m_object this = object)) as [E|E]; cbn [fst snd].
  - repeat split; try done.
    + by rewrite decide_True.
    + intros p Hp Hne. congruence.
  - repeat split; try done.
    + by rewrite decide_True.
    + intros p Hp _. rewrite Hp. apply lookup_delete_eq.
    + intros q Hq. unfold destroy. destruct (m_object this) as [p|]; [|done].
      apply lookup_delete_ne. congruence.
Qed.

Lemma assign_idempotent_witness :
  assign {| m_object := Some 5%positive |} (Some 5%positive) ({[ 5%positive := tt ]})
  = ({| m_object := Some 5%positive |}, {[ 5%positive := tt ]}).
Proof.
  apply (assign_idempotent {| m_object := Some 5%positive |} (Some 5%positive)
           ({[ 5%positive := tt ]} : gmap ptr unit)).
  reflexivity.
Defined.

End JscFacts.

Module CollectionMore.
Import Collection CollectionFacts.

(** ** Registration *)

Lemma get_function_world (obj : ref) (name : string) (w : world) :
  (get_function obj name w).2 = w.
Proof.
  unfold get_function, get_property, validated_to_function, is_function, bind, ret, throw.
  cbn [fst snd].
  destruct (is_undefined _); [done|].
  destruct (match heap w !! obj with Some (Plain props) => _ | _ => _ end)
    as [| | |r|]; cbn; try done.
  by destruct (heap w !! r) as [[]|].
Qed.

Lemma get_function_outcome (obj : ref) (name : string) (w : world) :
  exists x, get_function obj name w = (x, w).
Proof.
  exists (get_function obj name w).1.
  rewrite <- (get_function_world obj name w) at 3. by destruct (get_function obj name w).
Qed.

(** A successful [add_listener] appends one pair to the list, made of the
    reference of the value it was given and a new token, subscribes one
    callback under that token, and does nothing else: no object changes and
    no scripting function is called. *)
Theorem add_listener_registers_one (this_object : ref) (v : value) (w w1 : world) :
  add_listener this_object v w = (Ok tt, w1) ->
  exists r cb,
    v = VObject r
    /\ m_notification_tokens w1 = m_notification_tokens w ++ [(r, next_token w)]
    /\ subscribers w1 = <[next_token w := cb]> (subscribers w)
    /\ next_token w1 = Pos.succ (next_token w)
    /\ heap w1 = heap w
    /\ next_ref w1 = next_ref w
    /\ calls w1 = calls w.
Proof.
  unfold add_listener. unfold bind at 1. unfold is_function at 1.
  assert (Hooked : forall obj,
    (obj <- validated_to_object (VObject obj) ;;
     before_fn <- get_function obj "before" ;;
     after_fn <- get_function obj "after" ;;
     error_fn <- get_function obj "error" ;;
     t <- add_notification_callback
            (Hooks {| protected_this := this_object; before_fn := before_fn;
                      after_fn := after_fn; error_fn := error_fn |}) ;;
     emplace_back obj t) w = (Ok tt, w1) ->
    exists cb,
      m_notification_tokens w1 = m_notification_tokens w ++ [(obj, next_token w)]
      /\ subscribers w1 = <[next_token w := cb]> (subscribers w)
      /\ next_token w1 = Pos.succ (next_token w)
      /\ heap w1 = heap w /\ next_ref w1 = next_ref w /\ calls w1 = calls w).
  { intros obj. unfold validated_to_object. unfold bind at 1. unfold ret at 1.
    destruct (get_function_outcome obj "before" w) as [[b|e] Eb];
      unfold bind at 1; rewrite Eb; [|discriminate].
    destruct (get_function_outcome obj "after" w) as [[a|e] Ea];
      unfold bind at 1; rewrite Ea; [|discriminate].
    destruct (get_function_outcome obj "error" w) as [[c|e] Ec];
      unfold bind at 1; rewrite Ec; [|discriminate].
    run. intros [= <-]. eexists. repeat split. }
  destruct v as [| | |r|]; try (cbn; discriminate).
  destruct (heap w !! r) as [[props|elems|source]|] eqn:Hr.
  - intros H. apply Hooked in H as (cb & H). eauto 10.
  - intros H. apply Hooked in H as (cb & H). eauto 10.
  - run. rewrite Hr. run. intros [= <-]. eexists _, _. repeat split.
  - intros H. apply Hooked in H as (cb & H). eauto 10.
Qed.

Lemma add_listener_registers_one_witness :
  exists r cb,
    VObject 3%positive = VObject r
    /\ m_notification_tokens (add_listener 7%positive (VObject 3%positive) after_only).2
       = m_notification_tokens after_only ++ [(r, next_token after_only)]
    /\ subscribers (add_listener 7%positive (VObject 3%positive) after_only).2
       = <[next_token after_only := cb]> (subscribers after_only)
    /\ next_token (add_listener 7%positive (VObject 3%positive) after_only).2
       = Pos.succ (next_token after_only)
    /\ heap (add_listener 7%positive (VObject 3%positive) after_only).2 = heap after_only
    /\ next_ref (add_listener 7%positive (VObject 3%positive) after_only).2
       = next_ref after_only
    /\ calls (add_listener 7%positive (VObject 3%positive) after_only).2
       = calls after_only.
Proof.
  apply (add_listener_registers_one 7%positive (VObject 3%positive) after_only).
  reflexivity.
Defined.

Lemma get_function_throws (obj : ref) (name : string) (w w' : world) (e : exn) :
  get_function obj name w = (Throw e, w') -> exists message, e = invalid_argument message.
Proof.
  unfold get_function, get_property, validated_to_function, is_function, bind, ret, throw.
  cbn [fst snd].
  destruct (is_undefined _); [discriminate|].
  destruct (match heap w !! obj with Some (Plain props) => _ | _ => _ end)
    as [| | |r|]; cbn; try (intros [= <- ?]; eauto).
  destruct (heap w !! r) as [[]|]; intros [= <- ?]; eauto.
Qed.

(** [add_listener] given a value that is no object (undefined, a number, a
    string) throws [std::invalid_argument] and registers nothing. *)
Theorem add_listener_rejects_non_objects (this_object : ref) (v : value) (w : world) :
  (forall r, v <> VObject r) ->
  exists message, add_listener this_object v w = (Throw (invalid_argument message), w).
Proof.
  intros Hv. destruct v as [| | |r|]; try (eexists; reflexivity).
  by destruct (Hv r).
Qed.

Lemma add_listener_rejects_non_objects_witness :
  exists message,
    add_listener 7%positive (VNumber 3) two_functions
    = (Throw (invalid_argument message), two_functions).
Proof.
  apply (add_listener_rejects_non_objects 7%positive (VNumber 3) two_functions).
  discriminate.
Defined.

Lemma get_function_bad (w : world) (obj : ref) (props : gmap string value) (name : string)
    (v : value) :
  heap w !! obj = Some (Plain props) ->
  props !! name = Some v ->
  v <> VUndefined ->
  (forall r source, v = VObject r -> heap w !! r <> Some (Function source)) ->
  exists message, get_function obj name w = (Throw (invalid_argument message), w).
Proof.
  intros Ho Hn Hu Hf.
  unfold get_function, get_property, validated_to_function, is_function, bind, ret, throw.
  cbn [fst snd]. rewrite Ho, Hn. cbv [default from_option id].
  destruct v as [| | |r|]; cbn; try (eexists; reflexivity); [done|].
  destruct (heap w !! r) as [[| |source]|] eqn:Hr; try (eexists; reflexivity).
  by destruct (Hf r source eq_refl).
Qed.

(** A hook object one of whose members [before], [after], [error] is
    defined and is not a function makes [add_listener] throw
    [std::invalid_argument]; nothing is registered, whatever the other
    members are. *)
Theorem add_listener_rejects_bad_hook (this_object obj : ref) (props : gmap string value)
    (name : string) (v : value) (w : world) :
  heap w !! obj = Some (Plain props) ->
  name = "before" \/ name = "after" \/ name = "error" ->
  props !! name = Some v ->
  v <> VUndefined ->
  (forall r source, v = VObject r -> heap w !! r <> Some (Function source)) ->
  exists message,
    add_listener this_object (VObject obj) w = (Throw (invalid_argument message), w).
Proof.
  intros Ho Hname Hn Hu Hf.
  destruct (get_function_bad w obj props name v Ho Hn Hu Hf) as [bad Ebad].
  unfold add_listener. unfold bind at 1. unfold is_function at 1. rewrite Ho.
  unfold validated_to_object. unfold bind at 1. unfold ret at 1.
  destruct (get_function_outcome obj "before" w) as [[b|e] Eb]; unfold bind at 1; rewrite Eb.
  2: { destruct (get_function_throws _ _ _ _ _ Eb) as [m ->]. eauto. }
  destruct (get_function_outcome obj "after" w) as [[a|e] Ea]; unfold bind at 1; rewrite Ea.
  2: { destruct (get_function_throws _ _ _ _ _ Ea) as [m ->]. eauto. }
  destruct (get_function_outcome obj "error" w) as [[c|e] Ec]; unfold bind at 1; rewrite Ec.
  2: { destruct (get_function_throws _ _ _ _ _ Ec) as [m ->]. eauto. }
  destruct Hname as [ -> | [ -> | -> ] ]; congruence.
Qed.

Lemma add_listener_rejects_bad_hook_witness :
  exists message,
    add_listener 7%positive (VObject 5%positive) number_for_after
    = (Throw (invalid_argument message), number_for_after).
Proof.
  apply (add_listener_rejects_bad_hook 7%positive 5%positive
           (<["after" := VNumber 5]> (<["before" := VObject 1%positive]> ∅))
           "after" (VNumber 5) number_for_after).
  - reflexivity.
  - auto.
  - reflexivity.
  - discriminate.
  - discriminate.
Defined.

(** ** Removal *)

Lemma remove_if_none {A : Type} (pred : A -> bool) (l : list A) :
  (forall x, x ∈ l -> pred x = false) -> remove_if pred l = l.
Proof.
  induction l as [|x l IH]; intros H; [done|]. cbn.
  rewrite (H x) by (apply elem_of_cons; auto). f_equal. apply IH.
  intros y Hy. apply H, elem_of_cons. auto.
Qed.

Lemma remove_if_all {A : Type} (pred : A -> bool) (l : list A) :
  (forall x, x ∈ l -> pred x = true) -> remove_if pred l = [].
Proof.
  induction l as [|x l IH]; intros H; [done|]. cbn.
  rewrite (H x) by (apply elem_of_cons; auto). apply IH.
  intros y Hy. apply H, elem_of_cons. auto.
Qed.

Lemma remove_if_app {A : Type} (pred : A -> bool) (l k : list A) :
  remove_if pred (l ++ k) = remove_if pred l ++ remove_if pred k.
Proof.
  induction l as [|x l IH]; [done|]. cbn. rewrite IH. by destruct (pred x).
Qed.

Lemma compare_false (a b : ref) : a <> b -> compare a b = false.
Proof. intros H. unfold compare. by rewrite bool_decide_false. Qed.

Lemma compare_refl (a : ref) : compare a a = true.
Proof. unfold compare. by rewrite bool_decide_true. Qed.

(** [remove_listener] given a reference that is not in the list changes
    nothing: no pair goes and no token is unsubscribed. *)
Theorem remove_listener_unregistered (f : ref) (w : world) :
  (forall t, (f, t) ∉ m_notification_tokens w) ->
  remove_listener f w = w.
Proof.
  intros H. unfold remove_listener. destruct w as [h n c subs nt tokens]. cbn in *.
  assert (K : remove_if (fun p : ref * token => compare p.1 f) tokens = tokens).
  { apply remove_if_none. intros [g t] Hin. cbn. apply compare_false.
    intros ->. by apply (H t). }
  assert (G : remove_if (fun p : ref * token => negb (compare p.1 f)) tokens = []).
  { apply remove_if_all. intros [g t] Hin. cbn. rewrite compare_false; [done|].
    intros ->. by apply (H t). }
  by rewrite K, G.
Qed.

Lemma remove_listener_unregistered_witness :
  remove_listener 9%positive registered_twice = registered_twice.
Proof.
  apply (remove_listener_unregistered 9%positive registered_twice).
  intros t Hin. vm_compute in Hin. apply list_elem_of_In in Hin. cbn in Hin.
  repeat destruct Hin as [Hin|Hin]; try discriminate Hin. done.
Defined.

(** A second [remove_listener] of the same reference changes nothing. *)
Theorem remove_listener_idempotent (f : ref) (w : world) :
  remove_listener f (remove_listener f w) = remove_listener f w.
Proof.
  apply remove_listener_unregistered. intros t. cbn [remove_listener m_notification_tokens].
  rewrite kept_filter. rewrite list_elem_of_filter. cbn. tauto.
Qed.

(** After [add_listener] of a value and [remove_listener] of the same
    reference, a change set or a failure delivered under the token of that
    registration calls nothing and changes nothing. *)
Theorem removed_listener_is_silent (this_object r : ref) (w w1 : world)
    (changes : CollectionChangeSet) (exception : exn) :
  add_listener this_object (VObject r) w = (Ok tt, w1) ->
  notify (next_token w) changes (remove_listener r w1) = (Ok tt, remove_listener r w1)
  /\ notify_error (next_token w) exception (remove_listener r w1)
     = (Ok tt, remove_listener r w1).
Proof.
  intros H. apply add_listener_registers_one in H as (r' & cb & [= <-] & Ht & _).
  assert (G : subscribers (remove_listener r w1) !! next_token w = None).
  { cbn [remove_listener subscribers]. rewrite lookup_unsubscribe.
    rewrite decide_True; [done|]. apply gone_tokens. rewrite Ht.
    apply elem_of_app. right. apply list_elem_of_singleton. done. }
  unfold notify, notify_error. by rewrite G.
Qed.

Lemma removed_listener_is_silent_witness :
  exists w1,
    add_listener 7%positive (VObject 1%positive) two_functions = (Ok tt, w1)
    /\ notify 1%positive round_trip_changes (remove_listener 1%positive w1)
       = (Ok tt, remove_listener 1%positive w1).
Proof.
  eexists. split; [reflexivity|].
  apply (removed_listener_is_silent 7%positive 1%positive two_functions _
           round_trip_changes non_std).
  reflexivity.
Defined.

(** [add_listener] of a reference that was not registered, then
    [remove_listener] of it, gives back the list and the subscriptions there
    were; only the token counter has moved on. *)
Theorem add_remove_round_trip (this_object r : ref) (w w1 : world) :
  add_listener this_object (VObject r) w = (Ok tt, w1) ->
  (forall t, (r, t) ∉ m_notification_tokens w) ->
  subscribers w !! next_token w = None ->
  remove_listener r w1
  = World (heap w) (next_ref w) (calls w) (subscribers w) (Pos.succ (next_token w))
          (m_notification_tokens w).
Proof.
  intros H Hr Hfresh.
  apply add_listener_registers_one in H
    as (r' & cb & [= <-] & Ht & Hs & Hn & Hh & Hnr & Hc).
  assert (K : remove_if (fun p : ref * token => compare p.1 r) (m_notification_tokens w)
              = m_notification_tokens w).
  { apply remove_if_none. intros [g t] Hin. cbn. apply compare_false.
    intros ->. by apply (Hr t). }
  assert (G : remove_if (fun p : ref * token => negb (compare p.1 r))
                (m_notification_tokens w) = []).
  { apply remove_if_all. intros [g t] Hin. cbn. rewrite compare_false; [done|].
    intros ->. by apply (Hr t). }
  unfold remove_listener. rewrite Ht, Hs, Hn, Hh, Hnr, Hc, !remove_if_app, K, G.
  cbn. rewrite !compare_refl. cbn. rewrite app_nil_r.
  rewrite delete_insert_eq, delete_id by done. reflexivity.
Qed.

Lemma add_remove_round_trip_witness :
  exists w1,
    add_listener 7%positive (VObject 1%positive) two_functions = (Ok tt, w1)
    /\ remove_listener 1%positive w1
       = World (heap two_functions) 10%positive [] ∅ 2%positive [].
Proof.
  eexists. split; [reflexivity|].
  apply (add_remove_round_trip 7%positive 1%positive two_functions).
  - reflexivity.
  - intros t Hin. by apply elem_of_nil in Hin.
  - reflexivity.
Defined.

(** [remove_all_listeners] empties the list and unsubscribes the token of
    every pair that was in it, so that a change set delivered under one of
    them calls nothing; other subscriptions, the objects and the calls made
    so far are kept, and a second [remove_all_listeners] changes nothing. *)
Theorem remove_all_listeners_clears (w : world) :
  m_notification_tokens (remove_all_listeners w) = []
  /\ (forall t, subscribers (remove_all_listeners w) !! t
                = if decide (t ∈ (m_notification_tokens w).*2) then None
                  else subscribers w !! t)
  /\ (forall r t changes, (r, t) ∈ m_notification_tokens w ->
        notify t changes (remove_all_listeners w) = (Ok tt, remove_all_listeners w))
  /\ heap (remove_all_listeners w) = heap w
  /\ calls (remove_all_listeners w) = calls w
  /\ remove_all_listeners (remove_all_listeners w) = remove_all_listeners w.
Proof.
  split; [done|]. split; [intros t; apply lookup_unsubscribe|].
  split; [|done].
  intros r t changes Hin. unfold notify.
  cbn [remove_all_listeners subscribers]. rewrite lookup_unsubscribe.
  rewrite decide_True; [done|]. apply list_elem_of_fmap. by exists (r, t).
Qed.

Lemma remove_all_listeners_clears_witness :
  notify 2%positive round_trip_changes (remove_all_listeners registered_twice)
  = (Ok tt, remove_all_listeners registered_twice).
Proof.
  apply (remove_all_listeners_clears registered_twice) with (r := 2%positive).
  vm_compute. apply list_elem_of_In. cbn. tauto.
Defined.

(** ** What a delivery leaves alone *)

Lemma create_collection_change_set_frame (changes : CollectionChangeSet) (w : world) :
  exists w',
    create_collection_change_set changes w = (Ok (next_ref w), w')
    /\ calls w' = calls w
    /\ subscribers w' = subscribers w
    /\ m_notification_tokens w' = m_notification_tokens w
    /\ forall r, (r < next_ref w)%positive -> heap w' !! r = heap w !! r.
Proof.
  unfold create_collection_change_set, create_empty, alloc.
  unfold bind at 1. cbn beta iota.
  do 3 (unfold bind at 1;
        erewrite create_array_property_plain;
        [ | cbn [heap]; apply lookup_insert_eq | cbn [next_ref]; lia ];
        cbn [heap next_ref calls subscribers next_token m_notification_tokens]).
  unfold ret. eexists. split; [reflexivity|].
  cbn [heap next_ref calls subscribers next_token m_notification_tokens].
  do 3 (split; [reflexivity|]).
  intros r Hr. lookup_heap. reflexivity.
Qed.

(** Delivering a change set under any token changes no object that existed
    before the delivery, and changes neither the list of registrations nor
    the subscriptions; it makes at most two calls. *)
Theorem delivery_keeps_objects (t : token) (changes : CollectionChangeSet) (w : world) :
  (notify t changes w).1 = Ok tt
  /\ m_notification_tokens (notify t changes w).2 = m_notification_tokens w
  /\ subscribers (notify t changes w).2 = subscribers w
  /\ (exists made, calls (notify t changes w).2 = calls w ++ made /\ length made <= 2)
  /\ forall r, (r < next_ref w)%positive -> heap (notify t changes w).2 !! r = heap w !! r.
Proof.
  unfold notify. destruct (subscribers w !! t) as [[this_object f|c]|].
  - unfold deliver, lambda.
    destruct (create_collection_change_set_frame changes w) as (w' & E & Hc & Hs & Ht & Hh).
    erewrite bind_ok by exact E. run. rewrite Hc.
    repeat split; try done.
    eexists. split; [reflexivity|]. cbn. lia.
  - run. repeat split.
    + eexists. split; [by rewrite <- app_assoc|]. cbn. lia.
    + intros r Hr. lookup_heap. reflexivity.
  - cbn. repeat split.
    exists []. split; [by rewrite app_nil_r|]. cbn. lia.
Qed.

Lemma delivery_keeps_objects_witness :
  heap (notify 1%positive round_trip_changes registered_twice).2 !! 2%positive
  = Some (Function "function () {}").
Proof.
  pose proof (delivery_keeps_objects 1%positive round_trip_changes registered_twice)
    as (_ & _ & _ & _ & H).
  rewrite (H 2%positive); [reflexivity|]. vm_compute. reflexivity.
Defined.

End CollectionMore.

Module JscMore.
Import Jsc JscFacts.

(** ** The trampolines on the other paths *)

(** When the typed callback returns, each trampoline hands its result to the
    engine with an empty exception slot: the holder's content for the four
    getters and the method, [true] for a property setter, the callback's own
    answer for an index or string setter; the enumerator appends the names
    to the accumulator in their order. *)
Theorem trampolines_pass_results {T : Type} (w w' : world T) (return_value : ReturnValue)
    (function this_object object : ref) (arguments : list value) (property : string)
    (index : N) (v : value) (b : bool) (acc names : list string) :
  (forall F : MethodType,
     F this_object arguments (None, w) = (Ok tt, (return_value, w')) ->
     wrap_method F function this_object arguments w = (Ok (return_value, None), w'))
  /\ (forall F : PropertyGetterType,
     F object (None, w) = (Ok tt, (return_value, w')) ->
     wrap_getter F object property w = (Ok (return_value, None), w'))
  /\ (forall F : PropertySetterType,
     F object v w = (Ok tt, w') ->
     wrap_setter F object property v w = (Ok (true, None), w'))
  /\ (forall F : IndexPropertyGetterType,
     F object index (None, w) = (Ok tt, (return_value, w')) ->
     wrap_index_getter F object index w = (Ok (return_value, None), w'))
  /\ (forall F : IndexPropertySetterType,
     F object index v w = (Ok b, w') ->
     wrap_index_setter F object index v w = (Ok (b, None), w'))
  /\ (forall F : StringPropertyGetterType,
     F object property (None, w) = (Ok tt, (return_value, w')) ->
     wrap_string_getter F object property w = (Ok (return_value, None), w'))
  /\ (forall F : StringPropertySetterType,
     F object property v w = (Ok b, w') ->
     wrap_string_setter F object property v w = (Ok (b, None), w'))
  /\ (forall F : StringPropertyEnumeratorType,
     F object w = (Ok names, w') ->
     wrap_string_enumerator F object (acc, w) = (Ok tt, (acc ++ names, w'))).
Proof.
  repeat split; intros F E;
    unfold wrap_method, wrap_getter, wrap_setter, wrap_index_getter, wrap_index_setter,
      wrap_string_getter, wrap_string_setter, wrap_string_enumerator, returning, try_catch,
      bind, lift; cbn [fst snd]; rewrite E; try reflexivity.
  apply add_names_names.
Qed.

Lemma trampolines_pass_results_witness :
  wrap_index_getter three_elements 1%positive 2%N empty_world
  = (Ok (Some (VNumber 20), None), empty_world).
Proof.
  apply (trampolines_pass_results empty_world empty_world (Some (VNumber 20))
           1%positive 1%positive 1%positive [] "p" 2%N VUndefined true [] []).
  reflexivity.
Defined.

(** No trampoline catches a thrown object that is not a [std::exception]:
    it unwinds through the trampoline, with the state as the callback left
    it. *)
Theorem trampolines_pass_other_throws {T : Type} (e : exn) (w w' : world T)
    (return_value : ReturnValue) (function this_object object : ref)
    (arguments : list value) (property : string) (index : N) (v : value) :
  is_std_exception e = false ->
  (forall F : MethodType,
     F this_object arguments (None, w) = (Throw e, (return_value, w')) ->
     wrap_method F function this_object arguments w = (Throw e, w'))
  /\ (forall F : PropertyGetterType,
     F object (None, w) = (Throw e, (return_value, w')) ->
     wrap_getter F object property w = (Throw e, w'))
  /\ (forall F : PropertySetterType,
     F object v w = (Throw e, w') ->
     wrap_setter F object property v w = (Throw e, w'))
  /\ (forall F : IndexPropertyGetterType,
     F object index (None, w) = (Throw e, (return_value, w')) ->
     wrap_index_getter F object index w = (Throw e, w'))
  /\ (forall F : IndexPropertySetterType,
     F object index v w = (Throw e, w') ->
     wrap_index_setter F object index v w = (Throw e, w'))
  /\ (forall F : StringPropertyGetterType,
     F object property (None, w) = (Throw e, (return_value, w')) ->
     wrap_string_getter F object property w = (Throw e, w'))
  /\ (forall F : StringPropertySetterType,
     F object property v w = (Throw e, w') ->
     wrap_string_setter F object property v w = (Throw e, w')).
Proof.
  intros He.
  repeat split; intros F E;
    unfold wrap_method, wrap_getter, wrap_setter, wrap_index_getter, wrap_index_setter,
      wrap_string_getter, wrap_string_setter, returning, set_exception, try_catch,
      catch_std_exception, bind;
    rewrite E; destruct e; try discriminate He; reflexivity.
Qed.

Lemma trampolines_pass_other_throws_witness :
  wrap_setter (fun _ _ => throw non_std) 1%positive "p" VUndefined empty_world
  = (Throw non_std, empty_world).
Proof.
  apply (trampolines_pass_other_throws non_std empty_world empty_world None
           1%positive 1%positive 1%positive [] "p" 0%N VUndefined eq_refl).
  reflexivity.
Defined.

(** ** Property names that are no index *)

Lemma int_of_negative (n : N) :
  NilZero.int_of_string ("-" +:+ to_string n) = Some (Decimal.Neg (N.to_uint n)).
Proof.
  change ("-" +:+ to_string n)
    with (NilZero.string_of_int (Decimal.Neg (N.to_uint n))).
  apply NilZero.isi.
  - discriminate.
  - intros [= E]. by apply to_uint_nonnil in E.
Qed.

Lemma validated_positive_index_negative {S : Type} (n : N) (s : S) :
  (0 < n)%N ->
  exists message,
    validated_positive_index ("-" +:+ to_string n) s
    = (Throw (out_of_range message), s).
Proof.
  intros Hn. unfold validated_positive_index. rewrite int_of_negative.
  assert (E : Z.of_int (Decimal.Neg (N.to_uint n)) = (- Z.of_N n)%Z).
  { cbn [Z.of_int]. f_equal. unfold Z.of_uint.
    change (Pos.of_uint (N.to_uint n)) with (N.of_uint (N.to_uint n)).
    by rewrite DecimalN.Unsigned.of_to. }
  rewrite E. destruct (Z.ltb_spec (- Z.of_N n) 0) as [_|H]; [|lia].
  eexists. reflexivity.
Qed.

Lemma validated_positive_index_not_a_number {S : Type} (property : string) (s : S) :
  NilZero.int_of_string property = None ->
  exists message,
    validated_positive_index property s = (Throw (invalid_argument message), s).
Proof.
  intros E. unfold validated_positive_index. rewrite E. eexists. reflexivity.
Qed.

Lemma validated_positive_index_outcome {S : Type} (property : string) (s : S) :
  (exists index, validated_positive_index property s = (Ok index, s))
  \/ (exists message, validated_positive_index property s = (Throw (out_of_range message), s))
  \/ (exists message,
        validated_positive_index property s = (Throw (invalid_argument message), s)).
Proof.
  unfold validated_positive_index.
  destruct (NilZero.int_of_string property) as [d|]; [|right; right; eexists; reflexivity].
  destruct (Z.of_int d <? 0)%Z; [right; left; eexists; reflexivity|].
  destruct (4294967295 <? Z.of_int d)%Z; [right; left; eexists; reflexivity|].
  left. eexists. reflexivity.
Qed.

(** Reading a name that is a number but no index, negative or beyond
    [uint32_t], from a class with an index getter gives the undefined value
    with an empty exception slot, and neither the index getter nor the
    string getter is run. *)
Theorem get_property_bad_index {T : Type} (s_class : ObjectClass T)
    (index_getter : IndexPropertyGetterCallback) (object : ref) (n : N) (w : world T) :
  getter (index_accessor s_class) = Some index_getter ->
  ((4294967295 < n)%N ->
     get_property s_class object (to_string n) w = (Ok (Some VUndefined, None), w))
  /\ ((0 < n)%N ->
     get_property s_class object ("-" +:+ to_string n) w
     = (Ok (Some VUndefined, None), w)).
Proof.
  intros Hg. split; intros Hn; unfold get_property; rewrite Hg; unfold bind, try_catch.
  - destruct (validated_positive_index_large n w Hn) as [m ->]. reflexivity.
  - destruct (validated_positive_index_negative n w Hn) as [m ->]. reflexivity.
Qed.

Lemma get_property_bad_index_witness :
  get_property three_elements_class 1%positive "-1" empty_world
  = (Ok (Some VUndefined, None), empty_world).
Proof.
  refine (proj2 (get_property_bad_index three_elements_class _ 1%positive 1%N empty_world
                   eq_refl) _).
  reflexivity.
Defined.

(** Reading a name that is not a number, or any name when there is no index
    getter, goes to the string getter with that name; without a string
    getter the entry point returns the null value and an empty slot, which
    hands the read back to the engine. *)
Theorem get_property_named {T : Type} (s_class : ObjectClass T) (object : ref)
    (property : string) (w : world T) :
  NilZero.int_of_string property = None \/ getter (index_accessor s_class) = None ->
  get_property s_class object property w
  = match getter (string_accessor s_class) with
    | Some string_getter => string_getter object property w
    | None => (Ok (None, None), w)
    end.
Proof.
  intros H. unfold get_property.
  destruct (getter (index_accessor s_class)) as [g|];
    [|by destruct (getter (string_accessor s_class))].
  destruct H as [H|H]; [|discriminate H].
  unfold bind, try_catch.
  destruct (validated_positive_index_not_a_number property w H) as [m ->].
  by destruct (getter (string_accessor s_class)).
Qed.

Lemma get_property_named_witness :
  get_property wrapped_class 1%positive "size" empty_world
  = (Ok (Some (VString "size"), None), empty_world).
Proof.
  rewrite (get_property_named wrapped_class 1%positive "size" empty_world).
  - reflexivity.
  - left. reflexivity.
Defined.

(** Writing under a name that is a number but no index, in a class with an
    index setter or getter, fails: [set_property] returns [false] with an
    engine error in the slot, and no setter is run. *)
Theorem set_property_bad_index {T : Type} (s_class : ObjectClass T) (object : ref)
    (n : N) (v : value) (w : world T) :
  is_Some (setter (index_accessor s_class)) \/ is_Some (getter (index_accessor s_class)) ->
  ((4294967295 < n)%N ->
     exists message,
       set_property s_class object (to_string n) v w
       = (Ok (false, Some (VError message)), w))
  /\ ((0 < n)%N ->
     exists message,
       set_property s_class object ("-" +:+ to_string n) v w
       = (Ok (false, Some (VError message)), w)).
Proof.
  intros Ha. split; intros Hn; unfold set_property; rewrite bool_decide_true by done;
    unfold bind, try_catch.
  - destruct (validated_positive_index_large n w Hn) as [m ->]. eexists. reflexivity.
  - destruct (validated_positive_index_negative n w Hn) as [m ->]. eexists. reflexivity.
Qed.

Lemma set_property_bad_index_witness :
  exists message,
    set_property wrapped_class 1%positive "4294967296" (VNumber 1) empty_world
    = (Ok (false, Some (VError message)), empty_world).
Proof.
  refine (proj1 (set_property_bad_index wrapped_class 1%positive 4294967296%N (VNumber 1)
                   empty_world _) _).
  - left. eexists. reflexivity.
  - reflexivity.
Defined.

(** Where [set_property] sends a write: to the index setter with the parsed
    index when the name is an index and there is an index setter, passing on
    what the setter returns; to the string setter when the name is not a
    number or the class has no index accessor, and then [false] with an
    empty slot when there is no string setter. *)
Theorem set_property_dispatch {T : Type} (s_class : ObjectClass T) (object : ref)
    (v : value) (w : world T) :
  (forall index_setter n r w',
     setter (index_accessor s_class) = Some index_setter ->
     (n <= 4294967295)%N ->
     index_setter object n v w = (Ok r, w') ->
     set_property s_class object (to_string n) v w = (Ok r, w'))
  /\ (forall property,
     NilZero.int_of_string property = None
     \/ (setter (index_accessor s_class) = None /\ getter (index_accessor s_class) = None) ->
     set_property s_class object property v w
     = match setter (string_accessor s_class) with
       | Some string_setter => string_setter object property v w
       | None => (Ok (false, None), w)
       end).
Proof.
  split.
  - intros s n r w' Hs Hn E. unfold set_property. rewrite Hs.
    rewrite bool_decide_true by (left; eauto).
    unfold bind, try_catch. rewrite (validated_positive_index_to_string n w Hn), E.
    reflexivity.
  - intros property H. unfold set_property. case_bool_decide as Ha.
    + destruct H as [H|[Hs Hg]].
      * unfold bind, try_catch.
        destruct (validated_positive_index_not_a_number property w H) as [m ->].
        by destruct (setter (string_accessor s_class)).
      * rewrite Hs, Hg in Ha. destruct Ha as [[? [=]]|[? [=]]].
    + by destruct (setter (string_accessor s_class)).
Qed.

Lemma set_property_dispatch_witness :
  set_property wrapped_class 1%positive "size" (VNumber 1) empty_world
  = (Ok (true, None), empty_world).
Proof.
  rewrite (proj2 (set_property_dispatch wrapped_class 1%positive (VNumber 1) empty_world)
             "size").
  - reflexivity.
  - left. reflexivity.
Defined.

(** With accessors made by the trampolines, [get_property] and
    [set_property] return normally for every name whenever the typed
    callbacks throw nothing but [std::exception]s: no such exception leaves
    the two entry points. *)
Theorem entry_points_convert_std_exceptions {T : Type} (s_class : ObjectClass T)
    (Fig : IndexPropertyGetterType) (Fis : IndexPropertySetterType)
    (Fsg : StringPropertyGetterType) (Fss : StringPropertySetterType)
    (object : ref) (property : string) (v : value) (w : world T) :
  index_accessor s_class
  = {| getter := Some (wrap_index_getter Fig); setter := Some (wrap_index_setter Fis) |} ->
  accessors (string_accessor s_class)
  = {| getter := Some (wrap_string_getter Fsg); setter := Some (wrap_string_setter Fss) |} ->
  (forall i s e s', Fig object i s = (Throw e, s') -> is_std_exception e = true) ->
  (forall i s e s', Fis object i v s = (Throw e, s') -> is_std_exception e = true) ->
  (forall p s e s', Fsg object p s = (Throw e, s') -> is_std_exception e = true) ->
  (forall p s e s', Fss object p v s = (Throw e, s') -> is_std_exception e = true) ->
  (exists r w', get_property s_class object property w = (Ok r, w'))
  /\ (exists r w', set_property s_class object property v w = (Ok r, w')).
Proof.
  intros Hi Hs Sig Sis Ssg Sss.
  assert (Gi : forall i, exists r w', wrap_index_getter Fig object i w = (Ok r, w')).
  { intros i. unfold wrap_index_getter, returning, set_exception.
    destruct (Fig object i (None, w)) as [[[]|e] [rv w']] eqn:E; [eauto|].
    rewrite (Sig _ _ _ _ E). destruct e; eauto. }
  assert (Gs : exists r w', wrap_string_getter Fsg object property w = (Ok r, w')).
  { unfold wrap_string_getter, returning, set_exception.
    destruct (Fsg object property (None, w)) as [[[]|e] [rv w']] eqn:E; [eauto|].
    rewrite (Ssg _ _ _ _ E). eauto. }
  assert (Wi : forall i, exists r w', wrap_index_setter Fis object i v w = (Ok r, w')).
  { intros i. unfold wrap_index_setter, try_catch, bind, catch_std_exception.
    destruct (Fis object i v w) as [[b|e] w'] eqn:E; [eauto|].
    rewrite (Sis _ _ _ _ E). eauto. }
  assert (Ws : exists r w', wrap_string_setter Fss object property v w = (Ok r, w')).
  { unfold wrap_string_setter, try_catch, bind, catch_std_exception.
    destruct (Fss object property v w) as [[b|e] w'] eqn:E; [eauto|].
    rewrite (Sss _ _ _ _ E). eauto. }
  split.
  - unfold get_property. rewrite Hi, Hs. cbn [getter]. unfold bind, try_catch.
    destruct (validated_positive_index_outcome property w) as [[i ->]|[[m ->]|[m ->]]].
    + destruct (Gi i) as (r & w' & ->). eauto.
    + eauto.
    + exact Gs.
  - unfold set_property. rewrite Hi, Hs. cbn [getter setter].
    rewrite bool_decide_true by (left; eauto). unfold bind, try_catch.
    destruct (validated_positive_index_outcome property w) as [[i ->]|[[m ->]|[m ->]]].
    + destruct (Wi i) as (r & w' & ->). eauto.
    + eauto.
    + exact Ws.
Qed.

Lemma entry_points_convert_std_exceptions_witness :
  exists r w', set_property wrapped_class 1%positive "1" (VNumber 1) empty_world = (Ok r, w').
Proof.
  refine (proj2 (entry_points_convert_std_exceptions wrapped_class three_elements
                   frozen_setter echo_getter accepting_setter 1%positive "1" (VNumber 1)
                   empty_world eq_refl eq_refl _ _ _ _)).
  - intros i s e s'. unfold three_elements. destruct (i <? 3)%N; [discriminate|].
    by intros [= <- _].
  - intros i s e s'. by intros [= <- _].
  - intros p s e s'. discriminate.
  - intros p s e s'. discriminate.
Defined.

(** ** Enumeration when nothing escapes *)

Lemma get_property_names_returns_witness :
  get_property_names wrapped_class (fun _ => ret 3%N) 1%positive (["seen"], empty_world)
  = (Ok tt, (["seen"; "0"; "1"; "2"; "size"], empty_world)).
Proof.
  apply (get_property_names_returns wrapped_class (fun _ => ret 3%N)
           (fun object => ret ["size"]) (wrap_index_getter three_elements) 1%positive
           ["seen"] ["size"] empty_world empty_world empty_world (Ok 3%N)
           eq_refl eq_refl eq_refl I eq_refl).
Defined.

(** ** Construction that succeeds or unwinds *)

(** When the constructor callback returns, [construct] returns the instance
    it allocated with an empty exception slot, in the state the callback
    reached; when the callback throws what is no [std::exception],
    [construct] unwinds with it and the instance stays allocated. *)
Theorem construct_returns_instance {T : Type} (s_class : ObjectClass T)
    (ctor : ConstructorType) (constructor_object : ref) (arguments : list value)
    (w w' : world T) :
  constructor s_class = Some ctor ->
  (ctor (next_object w) arguments
        (World (natives w) (<[next_object w := {| m_object := None |}]> (wraps w))
               (Pos.succ (next_object w)))
   = (Ok tt, w') ->
   construct s_class constructor_object arguments w
   = (Ok (Some (next_object w), None), w'))
  /\ (forall e,
       ctor (next_object w) arguments
            (World (natives w) (<[next_object w := {| m_object := None |}]> (wraps w))
                   (Pos.succ (next_object w)))
       = (Throw e, w') ->
       is_std_exception e = false ->
       construct s_class constructor_object arguments w = (Throw e, w')).
Proof.
  intros Hc. split.
  - intros E. unfold construct. rewrite Hc. unfold bind at 1. unfold create.
    unfold try_catch, bind. by rewrite E.
  - intros e E He. unfold construct. rewrite Hc. unfold bind at 1. unfold create.
    unfold try_catch, bind, catch_std_exception. by rewrite E, He.
Qed.

Lemma construct_returns_instance_witness :
  exists w',
    construct storing_class 9%positive [] empty_world = (Ok (Some 1%positive, None), w')
    /\ wraps w' !! 1%positive = Some {| m_object := Some 5%positive |}
    /\ natives w' !! 5%positive = Some tt.
Proof.
  eexists. split.
  - apply (construct_returns_instance storing_class (storing_constructor 5%positive tt)
             9%positive [] empty_world _ eq_refl).
    reflexivity.
  - split; reflexivity.
Defined.

(** A constructor callback that allocates a native object and gives it to
    the instance leaves, after [construct], an instance whose wrap holds
    that object, alive in the native heap. *)
Theorem construct_stores_native {T : Type} (s_class : ObjectClass T) (p : ptr) (t : T)
    (constructor_object : ref) (arguments : list value) (w : world T) :
  constructor s_class = Some (storing_constructor p t) ->
  exists w',
    construct s_class constructor_object arguments w
    = (Ok (Some (next_object w), None), w')
    /\ wraps w' !! next_object w = Some {| m_object := Some p |}
    /\ natives w' !! p = Some t
    /\ forall o, o <> next_object w -> wraps w' !! o = wraps w !! o.
Proof.
  intros Hc. eexists. split.
  - unfold construct. rewrite Hc. unfold bind at 1. unfold create.
    unfold try_catch, bind, storing_constructor, new_native, set_internal, modify, ret,
      bind.
    cbn [natives wraps next_object]. rewrite lookup_insert_eq.
    unfold assign. cbn [m_object]. rewrite decide_False by discriminate.
    cbn [destroy]. reflexivity.
  - cbn [natives wraps next_object]. split; [apply lookup_insert_eq|].
    split; [apply lookup_insert_eq|].
    intros o Ho. by rewrite !lookup_insert_ne.
Qed.

Lemma construct_stores_native_witness :
  exists w',
    construct storing_class 9%positive [] empty_world = (Ok (Some 1%positive, None), w')
    /\ wraps w' !! 1%positive = Some {| m_object := Some 5%positive |}
    /\ natives w' !! 5%positive = Some tt
    /\ forall o, o <> 1%positive -> wraps w' !! o = wraps empty_world !! o.
Proof.
  apply (construct_stores_native storing_class 5%positive tt 9%positive [] empty_world).
  reflexivity.
Defined.

(** ** Finalization *)

(** [finalize] of an instance that has its wrap detaches the wrap and
    destroys the native object the wrap owns; the wraps of other instances
    and the other native objects are kept. *)
Theorem finalize_releases {T : Type} (object : ref) (wrap : ObjectWrap) (w : world T) :
  wraps w !! object = Some wrap ->
  (finalize object w).1 = Ok tt
  /\ wraps (finalize object w).2 !! object = None
  /\ (forall p, m_object wrap = Some p -> natives (finalize object w).2 !! p = None)
  /\ (forall o, o <> object -> wraps (finalize object w).2 !! o = wraps w !! o)
  /\ (forall q, m_object wrap <> Some q ->
                natives (finalize object w).2 !! q = natives w !! q).
Proof.
  intros Hw. unfold finalize, modify. cbn [fst snd]. rewrite Hw.
  cbn [natives wraps]. repeat split.
  - apply lookup_delete_eq.
  - intros p ->. apply lookup_delete_eq.
  - intros o Ho. by apply lookup_delete_ne.
  - intros q Hq. destruct (m_object wrap) as [p|]; [|done].
    apply lookup_delete_ne. congruence.
Qed.

Lemma finalize_releases_witness :
  exists w',
    construct storing_class 9%positive [] empty_world = (Ok (Some 1%positive, None), w')
    /\ wraps (finalize 1%positive w').2 !! 1%positive = None
    /\ natives (finalize 1%positive w').2 !! 5%positive = None.
Proof.
  eexists. split; [reflexivity|].
  match goal with |- context [finalize _ ?w'] =>
    destruct (finalize_releases 1%positive {| m_object := Some 5%positive |} w' eq_refl)
      as (_ & Hw & Hn & _)
  end.
  split; [exact Hw|]. exact (Hn 5%positive eq_refl).
Defined.

(** A second [finalize] of the same instance changes nothing: the private
    data is null by then, so nothing is deleted twice. *)
Theorem finalize_twice {T : Type} (object : ref) (w : world T) :
  finalize object (finalize object w).2 = (Ok tt, (finalize object w).2).
Proof.
  unfold finalize, modify. cbn [fst snd].
  destruct (wraps w !! object) as [wrap|] eqn:Hw.
  - cbn [wraps]. by rewrite lookup_delete_eq.
  - by rewrite Hw.
Qed.

(** [create] with a native object and then [finalize] of the new instance
    gives back the wraps there were and destroys that native object. *)
Theorem create_finalize_round_trip {T : Type} (internal : option ptr) (w : world T) :
  wraps w !! next_object w = None ->
  exists w1,
    create internal w = (Ok (next_object w), w1)
    /\ wraps w1 !! next_object w = Some {| m_object := internal |}
    /\ wraps (finalize (next_object w) w1).2 = wraps w
    /\ natives (finalize (next_object w) w1).2 = destroy internal (natives w).
Proof.
  intros Hfresh. eexists. split; [reflexivity|].
  split; [apply lookup_insert_eq|].
  unfold finalize, modify. cbn [fst snd wraps natives]. rewrite lookup_insert_eq.
  cbn [wraps natives m_object]. split; [|reflexivity].
  by rewrite delete_insert_eq, delete_id.
Qed.

Lemma create_finalize_round_trip_witness :
  exists w1,
    create (Some 5%positive) empty_world = (Ok 1%positive, w1)
    /\ wraps w1 !! 1%positive = Some {| m_object := Some 5%positive |}
    /\ wraps (finalize 1%positive w1).2 = wraps empty_world
    /\ natives (finalize 1%positive w1).2 = destroy (Some 5%positive) (natives empty_world).
Proof.
  apply (create_finalize_round_trip (Some 5%positive) empty_world). reflexivity.
Defined.

(** ** The class definitions *)

(** In the class [create_class] defines for a descriptor with an index
    getter and no index setter, the engine's write callback is installed and
    refuses a write to an index with the read-only error. *)
Theorem create_class_read_only_index {T : Type} (s_class : ObjectClass T)
    (validated_get_length : ref -> M (world T) N)
    (methods : gmap string MethodCallback) (index_getter : IndexPropertyGetterCallback)
    (object : ref) (n : N) (v : value) (w : world T) :
  getter (index_accessor s_class) = Some index_getter ->
  setter (index_accessor s_class) = None ->
  (n <= 4294967295)%N ->
  exists write,
    class_setProperty (create_class s_class validated_get_length methods) = Some write
    /\ is_Some (class_getProperty (create_class s_class validated_get_length methods))
    /\ write object (to_string n) v w
       = (Ok (false, Some (VError ("Cannot assigned to read only index " +:+ to_string n))),
          w).
Proof.
  intros Hg Hs Hn. exists (set_property s_class).
  unfold create_class. cbn [class_setProperty class_getProperty].
  rewrite bool_decide_true by (left; rewrite Hg; eauto).
  split; [reflexivity|]. split; [eauto|].
  unfold set_property. rewrite Hg, Hs.
  rewrite bool_decide_true by (right; eauto).
  unfold bind, try_catch. by rewrite (validated_positive_index_to_string n w Hn).
Qed.

Lemma create_class_read_only_index_witness :
  exists write,
    class_setProperty (create_class three_elements_class (fun _ => ret 3%N) ∅) = Some write
    /\ is_Some (class_getProperty (create_class three_elements_class (fun _ => ret 3%N) ∅))
    /\ write 1%positive "1" (VNumber 5) empty_world
       = (Ok (false, Some (VError "Cannot assigned to read only index 1")), empty_world).
Proof.
  apply (create_class_read_only_index three_elements_class (fun _ => ret 3%N) ∅
           (wrap_index_getter three_elements) 1%positive 1%N (VNumber 5) empty_world).
  - reflexivity.
  - reflexivity.
  - lia.
Defined.

(** In the class [create_class] defines for a descriptor that has setters
    and no getter, no read callback and no enumeration callback are
    installed, and the write callback is [set_property]; a descriptor with
    no accessor and no enumerator gets none of the three. *)
Theorem create_class_without_getters {T : Type} (s_class : ObjectClass T)
    (validated_get_length : ref -> M (world T) N)
    (methods : gmap string MethodCallback) :
  getter (index_accessor s_class) = None ->
  getter (string_accessor s_class) = None ->
  class_getProperty (create_class s_class validated_get_length methods) = None
  /\ (enumerator (string_accessor s_class) = None ->
      class_getPropertyNames (create_class s_class validated_get_length methods) = None)
  /\ (is_Some (setter (index_accessor s_class))
      \/ is_Some (setter (string_accessor s_class)) ->
      class_setProperty (create_class s_class validated_get_length methods) = Some (set_property s_class))
  /\ (setter (index_accessor s_class) = None ->
      setter (string_accessor s_class) = None ->
      class_setProperty (create_class s_class validated_get_length methods) = None).
Proof.
  intros Hi Hs. unfold create_class.
  cbn [class_getProperty class_setProperty class_getPropertyNames].
  rewrite Hi, Hs.
  rewrite (bool_decide_false (is_Some None \/ is_Some None))
    by (intros [[? [=]]|[? [=]]]).
  split; [reflexivity|]. split.
  - intros ->. rewrite bool_decide_false; [done|]. intros [[? [=]]|[? [=]]].
  - split.
    + intros H. by rewrite bool_decide_true.
    + intros -> ->. rewrite bool_decide_false; [done|]. intros [[? [=]]|[? [=]]].
Qed.

Lemma create_class_without_getters_witness :
  class_getProperty (create_class storing_class (fun _ => ret 0%N) ∅) = None
  /\ class_setProperty (create_class storing_class (fun _ => ret 0%N) ∅) = None.
Proof.
  destruct (create_class_without_getters storing_class (fun _ => ret 0%N) ∅
              eq_refl eq_refl)
    as (Hg & _ & _ & Hs).
  split; [exact Hg|]. exact (Hs eq_refl eq_refl).
Defined.

(** What a [new] expression on the constructor object runs: [construct]
    whenever the descriptor has a constructor callback; [construct] too,
    which then reports "Illegal constructor", when it has neither a callback
    nor static members; and no native callback when it has static members
    only. *)
Theorem create_constructor_callback {T : Type} (s_class : ObjectClass T)
    (static_methods : gmap string MethodCallback)
    (static_properties
       : gmap string (PropertyType PropertyGetterCallback PropertySetterCallback))
    (constructor_object : ref) (arguments : list value) (w : world T) :
  (is_Some (constructor s_class) ->
     create_constructor s_class static_methods static_properties
     = Some (construct s_class))
  /\ (constructor s_class = None -> static_methods = ∅ -> static_properties = ∅ ->
      exists callback,
        create_constructor s_class static_methods static_properties = Some callback
        /\ callback constructor_object arguments w
           = (Ok (None, Some (VError "Illegal constructor")), w))
  /\ (constructor s_class = None -> static_methods <> ∅ \/ static_properties <> ∅ ->
      create_constructor s_class static_methods static_properties = None).
Proof.
  unfold create_constructor, create_constructor_class, table_empty. repeat split.
  - intros [ctor Hc]. rewrite Hc. rewrite bool_decide_false by discriminate. reflexivity.
  - intros Hc -> ->. rewrite Hc, bool_decide_true by done.
    rewrite !map_size_empty. cbn. exists (construct s_class). split; [reflexivity|].
    unfold construct. by rewrite Hc.
  - intros Hc Hne. rewrite Hc, bool_decide_true by done. cbn [andb].
    destruct Hne as [Hne|Hne].
    + rewrite (bool_decide_false (size static_methods = 0));
        [reflexivity | by rewrite map_size_empty_iff].
    + rewrite (bool_decide_false (size static_properties = 0));
        [by rewrite andb_false_r | by rewrite map_size_empty_iff].
Qed.

Lemma create_constructor_callback_witness :
  exists callback,
    create_constructor three_elements_class ∅ ∅ = Some callback
    /\ callback 9%positive [] empty_world
       = (Ok (None, Some (VError "Illegal constructor")), empty_world).
Proof.
  apply (create_constructor_callback three_elements_class ∅ ∅ 9%positive [] empty_world);
    reflexivity.
Defined.

(** The tables of static values and static functions have one row for each
    entry of the map, under pairwise distinct names; a property keeps its
    own setter when it has one, and every function row is read-only, not
    enumerated and not deletable. *)
Theorem static_tables {T : Type}
    (props : gmap string (PropertyType (@PropertyGetterCallback T) PropertySetterCallback))
    (methods : gmap string (@MethodCallback T)) :
  length (get_properties props) = size props
  /\ NoDup (static_name <$> get_properties props)
  /\ (forall p prop s row,
        props !! p = Some prop -> setter prop = Some s ->
        row ∈ get_properties props -> static_name row = p ->
        setProperty row = s /\ getProperty row = getter prop)
  /\ length (get_methods methods) = size methods
  /\ NoDup (function_name <$> get_methods methods)
  /\ (forall row, row ∈ get_methods methods ->
        methods !! function_name row = Some (callAsFunction row)
        /\ function_attributes row = [ReadOnly; DontEnum; DontDelete]).
Proof.
  repeat split.
  - unfold get_properties. by rewrite length_fmap, length_map_to_list.
  - unfold get_properties. rewrite <- list_fmap_compose.
    apply (NoDup_fst_map_to_list props).
  - apply get_properties_rows in H1 as (q & prop' & Hq & ->).
    cbn in H2. subst q. rewrite H in Hq. injection Hq as <-. cbn. by rewrite H0.
  - apply get_properties_rows in H1 as (q & prop' & Hq & ->).
    cbn in H2. subst q. rewrite H in Hq. by injection Hq as <-.
  - unfold get_methods. by rewrite length_fmap, length_map_to_list.
  - unfold get_methods. rewrite <- list_fmap_compose.
    apply (NoDup_fst_map_to_list methods).
  - unfold get_methods in H. apply list_elem_of_fmap in H as ([p f] & -> & Hin).
    cbn. by apply elem_of_map_to_list.
  - unfold get_methods in H. by apply list_elem_of_fmap in H as ([p f] & -> & Hin).
Qed.

Lemma static_tables_witness :
  exists row,
    row ∈ get_properties (properties wrapped_with_setter)
    /\ static_name row = "label"
    /\ setProperty row = wrap_setter (fun object v => ret tt)
    /\ getProperty row = None.
Proof.
  set (prop := {| getter := None; setter := Some (wrap_setter (fun object v => ret tt)) |}
               : PropertyType (@PropertyGetterCallback unit) (@PropertySetterCallback unit)).
  set (row := {| static_name := "label"; getProperty := getter prop;
                 setProperty := default set_readonly_property (setter prop) |}).
  assert (Hrow : row ∈ get_properties (properties wrapped_with_setter)).
  { apply get_properties_rows. exists "label", prop. split; reflexivity. }
  exists row. split; [exact Hrow|]. split; [reflexivity|].
  exact (proj1 (proj2 (proj2 (static_tables (properties wrapped_with_setter) ∅)))
           "label" prop (wrap_setter (fun object v => ret tt)) row
           eq_refl eq_refl Hrow eq_refl).
Defined.

End JscMore.
